(** * NotifyHub: credential codec, validators and ephemeral Firebase sessions

    A shallow embedding of the core of the notification relay:
    - [src/utils/validator.js]  (RequestValidator),
    - [src/utils/crypto.js]     (CryptoManager),
    - [src/core/firebase-service.js] (FirebaseNotificationService),
    - the decrypt phase of [src/middleware/request-handler.js].

    JavaScript values are modelled by an inductive type of JSON-like values,
    strings are sequences of UTF-16 code units, thrown exceptions are the
    [Throw] branch of a result type, and the mutable service object together
    with the outside world (clock, random source, Firebase SDK) is a record
    threaded through a small state-and-exception monad. *)

From Stdlib Require Import ZArith NArith List String Ascii Bool Lia.
From Stdlib Require Import DecimalString DecimalPos DecimalZ.
Import ListNotations.

Set Warnings "-register-all".

Local Open Scope Z_scope.

(* ================================================================== *)
(** * JavaScript values *)
(* ================================================================== *)

Module JS.

(** A JavaScript string is a sequence of UTF-16 code units. *)
Definition codeunit := N.
Definition jsstring := list codeunit.

(** A string literal of the source. *)
Definition lit (s : string) : jsstring :=
  List.map N_of_ascii (list_ascii_of_string s).

Definition str_eqb (a b : jsstring) : bool :=
  if list_eq_dec N.eq_dec a b then true else false.

(** The values the relay handles: what [JSON.parse] returns, plus
    [undefined] (the value of an absent property).  Numbers are the
    integral ones; objects keep their properties in enumeration order. *)
Inductive value : Type :=
| VUndefined
| VNull
| VBool (b : bool)
| VNumber (z : Z)
| VString (s : jsstring)
| VArray (l : list value)
| VObject (fields : list (jsstring * value)).

Inductive type_tag := TUndefined | TObject | TBoolean | TNumber | TString.

(** [typeof v] *)
Definition typeof (v : value) : type_tag :=
  match v with
  | VUndefined => TUndefined
  | VNull => TObject
  | VBool _ => TBoolean
  | VNumber _ => TNumber
  | VString _ => TString
  | VArray _ => TObject
  | VObject _ => TObject
  end.

Definition type_tag_eqb (a b : type_tag) : bool :=
  match a, b with
  | TUndefined, TUndefined | TObject, TObject | TBoolean, TBoolean
  | TNumber, TNumber | TString, TString => true
  | _, _ => false
  end.

(** ToBoolean: [if (v)], [!v], [a && b]. *)
Definition truthy (v : value) : bool :=
  match v with
  | VUndefined | VNull => false
  | VBool b => b
  | VNumber z => negb (z =? 0)
  | VString s => match s with [] => false | _ => true end
  | VArray _ | VObject _ => true
  end.

Fixpoint lookup (k : jsstring) (fields : list (jsstring * value)) : value :=
  match fields with
  | [] => VUndefined
  | (k', v) :: rest => if str_eqb k k' then v else lookup k rest
  end.

(** Property read [v[k]] / [v.k], for the property names this code reads
    (the field names of the two validators and [length]); none of them is
    defined on [Object.prototype]. *)
Definition get (v : value) (k : jsstring) : value :=
  match v with
  | VObject fields => lookup k fields
  | VArray l =>
      if str_eqb k (lit "length") then VNumber (Z.of_nat (List.length l))
      else VUndefined
  | VString s =>
      if str_eqb k (lit "length") then VNumber (Z.of_nat (List.length s))
      else VUndefined
  | _ => VUndefined
  end.

(** Decimal rendering of an integral number, as a template literal or
    [String(n)] gives it. *)
Definition render (z : Z) : jsstring :=
  lit (NilZero.string_of_int (Z.to_int z)).

(** ASCII digits, and the hyphen of a negative rendering. *)
Definition is_digit (c : codeunit) : bool := ((48 <=? c) && (c <=? 57))%N.

Definition hyphen : codeunit := 45%N.

(** [Array.prototype.join] on already converted elements. *)
Fixpoint join (sep : jsstring) (l : list jsstring) : jsstring :=
  match l with
  | [] => []
  | [x] => x
  | x :: rest => x ++ sep ++ join sep rest
  end.

(** What a [throw] carries: an error object with its class, message and
    the optional [code] property the Firebase SDK sets. *)
Inductive error_class := PlainError | TypeErrorClass | SyntaxErrorClass.

Record error := mkError {
  err_class : error_class;
  message : jsstring;
  code : option jsstring
}.

Definition Error (msg : jsstring) : error := mkError PlainError msg None.
Definition TypeError (msg : jsstring) : error := mkError TypeErrorClass msg None.

Inductive result (A : Type) : Type :=
| Ok (a : A)
| Throw (e : error).
Arguments Ok {A} a.
Arguments Throw {A} e.

(** A result-returning step followed by the rest of a block. *)
Definition and_then {A B} (r : result A) (k : A -> result B) : result B :=
  match r with
  | Ok a => k a
  | Throw e => Throw e
  end.

(** Whether an object has an own property of that name. *)
Definition has_own (k : jsstring) (fields : list (jsstring * value)) : bool :=
  existsb (fun kv => str_eqb k (fst kv)) fields.

(** ToString, as applied by [RegExp.prototype.test] to its argument and,
    through ToPrimitive, by a comparison to an operand that is an object.
    The values are those of JSON texts, so an own property is never a
    function.  For an object, ToPrimitive tries [toString] and [valueOf]:
    the inherited [valueOf] returns the object itself, the inherited
    [toString] gives ["[object Object]"], and an own [toString] property,
    which is not callable, hides the inherited one, so that no method gives a
    primitive and a [TypeError] is thrown.  For an array, the inherited
    [toString] joins the converted elements, [null] and [undefined] giving the
    empty string. *)
Fixpoint ToString (v : value) : result jsstring :=
  match v with
  | VUndefined => Ok (lit "undefined")
  | VNull => Ok (lit "null")
  | VBool true => Ok (lit "true")
  | VBool false => Ok (lit "false")
  | VNumber z => Ok (render z)
  | VString s => Ok s
  | VArray l =>
      and_then
        ((fix elems (l : list value) : result (list jsstring) :=
            match l with
            | [] => Ok []
            | e :: rest =>
                and_then
                  match e with
                  | VUndefined | VNull => Ok []
                  | _ => ToString e
                  end
                  (fun s => and_then (elems rest) (fun ss => Ok (s :: ss)))
            end) l)
        (fun ss => Ok (join (lit ",") ss))
  | VObject fields =>
      if has_own (lit "toString") fields
      then Throw (TypeError (lit "Cannot convert object to primitive value"))
      else Ok (lit "[object Object]")
  end.

(** [haystack.includes(needle)] on strings. *)
Fixpoint is_prefix (p s : jsstring) : bool :=
  match p, s with
  | [], _ => true
  | _ :: _, [] => false
  | a :: p', b :: s' => N.eqb a b && is_prefix p' s'
  end.

Fixpoint str_includes (s needle : jsstring) : bool :=
  is_prefix needle s ||
  match s with
  | [] => false
  | _ :: s' => str_includes s' needle
  end.

End JS.
Import JS.

(* ================================================================== *)
(** * Numeric comparison against a literal *)
(* ================================================================== *)

(** ECMAScript's StringToNumber (the grammar of numeric strings) is a
    built-in the repository relies on without defining it; [None] is NaN.
    It is only reached when a field holds an object or array whose [length]
    is not already a number. *)
Class NumericStrings := {
  StringToNumber : jsstring -> option Z
}.

Section Relational.
Context `{NumericStrings}.

(** ToNumber; an object or an array is first converted to a primitive,
    which is its string conversion or a [TypeError]. *)
Definition ToNumber (v : value) : result (option Z) :=
  match v with
  | VUndefined => Ok None
  | VNull => Ok (Some 0)
  | VBool b => Ok (Some (if b then 1 else 0))
  | VNumber z => Ok (Some z)
  | VString s => Ok (StringToNumber s)
  | VArray _ | VObject _ => and_then (ToString v) (fun s => Ok (StringToNumber s))
  end.

(** [v > n] and [v < n] for a number literal [n]; a NaN operand makes
    either comparison false, an operand without a primitive value makes it
    throw. *)
Definition gt (v : value) (n : Z) : result bool :=
  and_then (ToNumber v)
    (fun x => Ok match x with Some z => n <? z | None => false end).

Definition lt (v : value) (n : Z) : result bool :=
  and_then (ToNumber v)
    (fun x => Ok match x with Some z => z <? n | None => false end).

End Relational.

(* ================================================================== *)
(** * Regular expressions *)
(* ================================================================== *)

Module Regex.

(** The fragment of regular expressions the source uses, over code units;
    a character class is its membership test. *)
Inductive regex : Type :=
| Empty
| Eps
| Class_ (p : codeunit -> bool)
| Cat (r1 r2 : regex)
| Alt (r1 r2 : regex)
| Star (r : regex).

Definition Plus (r : regex) : regex := Cat r (Star r).

Fixpoint nullable (r : regex) : bool :=
  match r with
  | Empty => false
  | Eps => true
  | Class_ _ => false
  | Cat r1 r2 => nullable r1 && nullable r2
  | Alt r1 r2 => nullable r1 || nullable r2
  | Star _ => true
  end.

(** Brzozowski derivative with respect to one code unit. *)
Fixpoint deriv (c : codeunit) (r : regex) : regex :=
  match r with
  | Empty => Empty
  | Eps => Empty
  | Class_ p => if p c then Eps else Empty
  | Cat r1 r2 =>
      if nullable r1 then Alt (Cat (deriv c r1) r2) (deriv c r2)
      else Cat (deriv c r1) r2
  | Alt r1 r2 => Alt (deriv c r1) (deriv c r2)
  | Star r' => Cat (deriv c r') (Star r')
  end.

(** [/^r$/.test(s)]: the whole of [s] matches [r]. *)
Fixpoint test (r : regex) (s : jsstring) : bool :=
  match s with
  | [] => nullable r
  | c :: s' => test (deriv c r) s'
  end.

(** The class [\s] of ECMAScript: white space and line terminators. *)
Definition is_space (c : codeunit) : bool :=
  ((9 <=? c) && (c <=? 13) || (c =? 32) || (c =? 160) || (c =? 5760)
   || (8192 <=? c) && (c <=? 8202) || (c =? 8232) || (c =? 8233)
   || (c =? 8239) || (c =? 8287) || (c =? 12288) || (c =? 65279))%N.

Definition chr (a : ascii) : regex := Class_ (N.eqb (N_of_ascii a)).

End Regex.

(* ================================================================== *)
(** * RequestValidator (src/utils/validator.js) *)
(* ================================================================== *)

Module RequestValidator.
Import Regex.

Record ValidationResult := mkValidation {
  isValid : bool;
  errors : list jsstring
}.

(** [this.requiredFields] *)
Definition requiredFields : list jsstring :=
  [lit "firebaseConfig"; lit "token"; lit "title"; lit "body"].

Definition is_object (v : value) : bool :=
  truthy v && type_tag_eqb (typeof v) TObject.

(** [if (cond) { errors.push(msg); }] *)
Definition push_when (cond : bool) (errors : list jsstring) (msg : jsstring)
  : list jsstring :=
  if cond then errors ++ [msg] else errors.

(** [a && b] where only the evaluation of [b] can throw. *)
Definition and_also (a : bool) (b : result bool) : result bool :=
  if a then b else Ok false.

Section Payload.
Context `{NumericStrings}.

(** [validatePayload(payload)]; the four comparisons of a [length] are
    the only steps that can throw. *)
Definition validatePayload (payload : value) : result ValidationResult :=
  if negb (truthy payload) || negb (type_tag_eqb (typeof payload) TObject) then
    Ok (mkValidation false [lit "Request payload must be a valid JSON object"])
  else
    let errors0 : list jsstring := [] in
    let missingFields :=
      filter (fun field => negb (truthy (get payload field))) requiredFields in
    let errors1 :=
      push_when ((0 <? List.length missingFields)%nat)
        errors0 (lit "Missing required fields: " ++ join (lit ", ") missingFields) in
    let errors2 :=
      fold_left
        (fun errs field =>
           push_when
             (truthy (get payload field)
              && negb (type_tag_eqb (typeof (get payload field)) TString))
             errs (lit "Field '" ++ field ++ lit "' must be a string"))
        requiredFields errors1 in
    let title := get payload (lit "title") in
    and_then (and_also (truthy title) (gt (get title (lit "length")) 100))
      (fun long_title =>
    let errors3 :=
      push_when long_title errors2 (lit "Title must be 100 characters or less") in
    let body := get payload (lit "body") in
    and_then (and_also (truthy body) (gt (get body (lit "length")) 1000))
      (fun long_body =>
    let errors4 :=
      push_when long_body errors3 (lit "Body must be 1000 characters or less") in
    let token := get payload (lit "token") in
    and_then (and_also (truthy token) (lt (get token (lit "length")) 10))
      (fun short_token =>
    let errors5 :=
      push_when short_token errors4
        (lit "FCM token appears to be invalid (too short)") in
    let firebaseConfig := get payload (lit "firebaseConfig") in
    and_then (and_also (truthy firebaseConfig)
                (lt (get firebaseConfig (lit "length")) 50))
      (fun short_config =>
    let errors6 :=
      push_when short_config errors5
        (lit "Firebase config appears to be invalid (too short)") in
    Ok (mkValidation (List.length errors6 =? 0)%nat errors6))))).

End Payload.

(** [/^[^\s@]+@[^\s@]+\.[^\s@]+$/] *)
Definition not_space_at (c : codeunit) : bool :=
  negb (is_space c) && negb (N.eqb c (N_of_ascii "@")).

Definition emailRegex : regex :=
  Cat (Plus (Class_ not_space_at))
    (Cat (chr "@")
       (Cat (Plus (Class_ not_space_at))
          (Cat (chr ".") (Plus (Class_ not_space_at))))).

(** [_isValidEmail(email)]: [emailRegex.test] converts its argument with
    ToString, which can throw. *)
Definition _isValidEmail (email : value) : result bool :=
  and_then (ToString email) (fun text => Ok (test emailRegex text)).

(** [v.includes(needle)] with a string literal as needle: the method of
    [String.prototype] or of [Array.prototype]; on any other truthy value
    the property is not a function and the call throws. *)
Definition includes (what : jsstring) (v : value) (needle : jsstring) : result bool :=
  match v with
  | VString s => Ok (str_includes s needle)
  | VArray l =>
      Ok (existsb (fun e => match e with
                            | VString s => str_eqb s needle
                            | _ => false
                            end) l)
  | _ => Throw (TypeError (what ++ lit ".includes is not a function"))
  end.

Definition serviceAccountFields : list jsstring :=
  [lit "project_id"; lit "private_key"; lit "client_email"; lit "type"].

Definition is_literal (v : value) (s : jsstring) : bool :=
  match v with
  | VString s' => str_eqb s' s
  | _ => false
  end.

(** [validateServiceAccount(serviceAccount)] *)
Definition validateServiceAccount (serviceAccount : value) : result ValidationResult :=
  let requiredFields := serviceAccountFields in
  if negb (truthy serviceAccount) || negb (type_tag_eqb (typeof serviceAccount) TObject) then
    Ok (mkValidation false [lit "Service account must be a valid object"])
  else
    let errors1 :=
      fold_left
        (fun errs field =>
           push_when (negb (truthy (get serviceAccount field)))
             errs (lit "Missing required service account field: " ++ field))
        requiredFields [] in
    let type := get serviceAccount (lit "type") in
    let errors2 :=
      push_when (truthy type && negb (is_literal type (lit "service_account")))
        errors1 (lit "Invalid service account type") in
    let private_key := get serviceAccount (lit "private_key") in
    match
      (if truthy private_key
       then match includes (lit "serviceAccount.private_key") private_key
                    (lit "BEGIN PRIVATE KEY") with
            | Ok b => Ok (negb b)
            | Throw e => Throw e
            end
       else Ok false)
    with
    | Throw e => Throw e
    | Ok bad_key =>
        let errors3 :=
          push_when bad_key errors2 (lit "Invalid private key format") in
        let client_email := get serviceAccount (lit "client_email") in
        match
          (if truthy client_email
           then match _isValidEmail client_email with
                | Ok b => Ok (negb b)
                | Throw e => Throw e
                end
           else Ok false)
        with
        | Throw e => Throw e
        | Ok bad_email =>
            let errors4 :=
              push_when bad_email errors3 (lit "Invalid client email format") in
            Ok (mkValidation (List.length errors4 =? 0)%nat errors4)
        end
    end.

End RequestValidator.

(* ================================================================== *)
(** * State and exceptions *)
(* ================================================================== *)

(** A computation over a store [S] that returns a value or throws. *)
Definition M (S A : Type) : Type := S -> result A * S.

Definition ret {S A} (a : A) : M S A := fun s => (Ok a, s).

Definition bind {S A B} (m : M S A) (k : A -> M S B) : M S B :=
  fun s =>
    match m s with
    | (Ok a, s') => k a s'
    | (Throw e, s') => (Throw e, s')
    end.

Definition throw {S A} (e : error) : M S A := fun s => (Throw e, s).

Definition gets {S A} (f : S -> A) : M S A := fun s => (Ok (f s), s).

Definition modify {S} (f : S -> S) : M S unit := fun s => (Ok tt, f s).

(** [try { body } catch (error) { handler }] *)
Definition try_catch {S A} (body : M S A) (handler : error -> M S A) : M S A :=
  fun s =>
    match body s with
    | (Ok a, s') => (Ok a, s')
    | (Throw e, s') => handler e s'
    end.

(** [try { body } finally { fin }]: the completion of [body] is kept
    unless [fin] itself throws. *)
Definition try_finally {S A} (body : M S A) (fin : M S unit) : M S A :=
  fun s =>
    let (r, s') := body s in
    match fin s' with
    | (Ok _, s'') => (r, s'')
    | (Throw e, s'') => (Throw e, s'')
    end.

(** A [let] variable of a function body, visible to its [try], [catch]
    and [finally] blocks. *)
Definition with_local {L S A} (init : L) (m : M (L * S) A) : M S A :=
  fun s => let (r, ls) := m (init, s) in (r, snd ls).

Definition lift {L S A} (m : M S A) : M (L * S) A :=
  fun ls => let (r, s') := m (snd ls) in (r, (fst ls, s')).

Definition read_local {L S} : M (L * S) L := fun ls => (Ok (fst ls), ls).

Definition assign_local {L S} (l : L) : M (L * S) unit :=
  fun ls => (Ok tt, (l, snd ls)).

(** A synchronous result raised into a computation. *)
Definition of_result {S A} (r : result A) : M S A := fun s => (r, s).

Declare Scope monad_scope.
Delimit Scope monad_scope with monad.
Notation "x <- m ;; k" := (bind m (fun x => k))
  (at level 61, m at next level, right associativity) : monad_scope.
Notation "m ;;; k" := (bind m (fun _ => k))
  (at level 61, right associativity) : monad_scope.

(* ================================================================== *)
(** * The process: logger, clock, random source, SDK and HTTP utilities *)
(* ================================================================== *)

Module Process.

(** The methods of the logger. *)
Inductive level := error_ | warn | info | debug | success.

(** An [admin.app.App]; the service reads only its [name]. *)
Record App := mkApp { name : jsstring }.

(** What the service does to the outside, in the order it happens. *)
Inductive event : Type :=
| InitializeApp (credential : value) (appName : jsstring)
| Send (app : App) (message : value)
| DeleteApp (app : App)
| Log (lvl : level) (msg : jsstring) (meta : value)
| SendErrorResponse (statusCode : Z) (error : jsstring) (details : value).

(** The outside world: the system clock and random source by the number
    of reads so far, and the Firebase Admin SDK, whose outcomes may depend
    on everything that happened before. *)
Class Environment := {
  clock : nat -> Z;
  random36 : nat -> jsstring;
  toISOString : Z -> jsstring;
  initializeApp_fails : list event -> value -> jsstring -> option error;
  send_outcome : list event -> App -> value -> result jsstring;
  deleteApp_fails : list event -> App -> option error
}.

(** The service object ([appCounter], a Number that holds an integer)
    and the process around it. *)
Record World := mkWorld {
  appCounter : Z;
  ticks : nat;
  draws : nat;
  trace : list event
}.

(** [new FirebaseNotificationService()] in a fresh process. *)
Definition constructor : World := mkWorld 0 0 0 [].

(** [s.substring(n)] and [s.substring(0, n)] *)
Definition substring_from (s : jsstring) (n : nat) : jsstring := skipn n s.
Definition substring_to (s : jsstring) (n : nat) : jsstring := firstn n s.

(** [v.k] where reading a property of [null] or [undefined] throws. *)
Definition read_prop (v : value) (k : jsstring) : result value :=
  match v with
  | VUndefined | VNull =>
      Throw (TypeError (lit "Cannot read properties of "
                          ++ match v with VNull => lit "null" | _ => lit "undefined" end
                          ++ lit " (reading '" ++ k ++ lit "')"))
  | _ => Ok (get v k)
  end.

Section Primitives.
Context `{Environment}.

Definition emit (e : event) : M World unit :=
  modify (fun w => mkWorld (appCounter w) (ticks w) (draws w) (trace w ++ [e])).

Definition logger (lvl : level) (msg : jsstring) (meta : value) : M World unit :=
  emit (Log lvl msg meta).

(** [Date.now()] *)
Definition Date_now : M World Z :=
  fun w => (Ok (clock (ticks w)),
            mkWorld (appCounter w) (S (ticks w)) (draws w) (trace w)).

(** [Math.random().toString(36)] *)
Definition Math_random_toString36 : M World jsstring :=
  fun w => (Ok (random36 (draws w)),
            mkWorld (appCounter w) (ticks w) (S (draws w)) (trace w)).

End Primitives.

End Process.
Import Process.

(* ================================================================== *)
(** * FirebaseNotificationService (src/core/firebase-service.js) *)
(* ================================================================== *)

Module FirebaseNotificationService.

Local Open Scope monad_scope.

Record SendResult := mkSendResult {
  messageId : jsstring;
  success_ : bool;
  duration : jsstring;
  timestamp : jsstring
}.

(** The template literal
    [`alwari-relay-${now}-${counter}-${suffix}`] of [_generateAppName]. *)
Definition app_name (now counter : Z) (suffix : jsstring) : jsstring :=
  lit "alwari-relay-" ++ render now ++ lit "-" ++ render counter
    ++ lit "-" ++ suffix.

Section Service.
Context `{Environment}.

(** [initializeApp({ credential: admin.credential.cert(serviceAccount) }, appName)] *)
Definition sdk_initializeApp (serviceAccount : value) (appName : jsstring) : M World App :=
  fun w =>
    let w' := mkWorld (appCounter w) (ticks w) (draws w)
                (trace w ++ [InitializeApp serviceAccount appName]) in
    match initializeApp_fails (trace w) serviceAccount appName with
    | Some e => (Throw e, w')
    | None => (Ok (mkApp appName), w')
    end.

(** [await admin.messaging(app).send(message)] *)
Definition sdk_send (app : App) (message : value) : M World jsstring :=
  fun w =>
    (send_outcome (trace w) app message,
     mkWorld (appCounter w) (ticks w) (draws w) (trace w ++ [Send app message])).

(** [await deleteApp(app)] *)
Definition sdk_deleteApp (app : App) : M World unit :=
  fun w =>
    let w' := mkWorld (appCounter w) (ticks w) (draws w)
                (trace w ++ [DeleteApp app]) in
    match deleteApp_fails (trace w) app with
    | Some e => (Throw e, w')
    | None => (Ok tt, w')
    end.

(** [n++] on a Number that holds an integer.  The sum is exact as long as
    it has at most 53 bits; beyond, it is rounded to the nearest Number, to
    the one with the even significand when two are equally near, so that a
    counter that has reached 2^53 stays there. *)
Definition increment (n : Z) : Z :=
  if (- 2 ^ 53 <=? n) && (n <? 2 ^ 53) then n + 1
  else if (Z.abs n <? 2 ^ 54) && Z.odd (Z.abs n / 2) then n + 2
  else n.

(** [_generateAppName()]: [this.appCounter++], then the template literal,
    whose three holes are evaluated from left to right. *)
Definition _generateAppName : M World jsstring :=
  modify (fun w => mkWorld (increment (appCounter w)) (ticks w) (draws w) (trace w)) ;;;
  now <- Date_now ;;
  counter <- gets appCounter ;;
  random <- Math_random_toString36 ;;
  ret (app_name now counter (substring_from random 7)).

(** [n] calls of [_generateAppName], one after the other. *)
Fixpoint generate_names (n : nat) : M World (list jsstring) :=
  match n with
  | O => ret []
  | S n' =>
      appName <- _generateAppName ;;
      rest <- generate_names n' ;;
      ret (appName :: rest)
  end.

(** [_initializeFirebaseApp(serviceAccount)] *)
Definition _initializeFirebaseApp (serviceAccount : value) : M World App :=
  try_catch
    (appName <- _generateAppName ;;
     app <- sdk_initializeApp serviceAccount appName ;;
     projectId <- of_result (read_prop serviceAccount (lit "project_id")) ;;
     logger debug (lit "Firebase app initialized: " ++ appName)
       (VObject [(lit "projectId", projectId)]) ;;;
     ret app)
    (fun error =>
       logger error_ (lit "Firebase app initialization failed: " ++ message error)
         (VObject []) ;;;
       throw (Error (lit "Failed to initialize Firebase app: " ++ message error))).

(** [_cleanupFirebaseApp(app)] *)
Definition _cleanupFirebaseApp (app : option App) : M World unit :=
  match app with
  | None => ret tt
  | Some app =>
      try_catch
        (sdk_deleteApp app ;;;
         logger debug (lit "Firebase app cleaned up successfully")
           (VObject [(lit "appName", VString (name app))]))
        (fun error =>
           logger warn (lit "Firebase app cleanup warning: " ++ message error)
             (VObject [(lit "appName", VString (name app))]))
  end.

(** [_buildNotificationMessage(token, title, body)] *)
Definition _buildNotificationMessage (token title body : jsstring) : M World value :=
  now <- Date_now ;;
  ret (VObject
         [(lit "token", VString token);
          (lit "notification",
            VObject [(lit "title", VString title); (lit "body", VString body)]);
          (lit "data",
            VObject [(lit "timestamp", VString (render now));
                     (lit "source", VString (lit "AlwariDev-NotificationHandler"));
                     (lit "version", VString (lit "1.0.0"))]);
          (lit "android",
            VObject [(lit "priority", VString (lit "high"));
                     (lit "notification",
                       VObject [(lit "sound", VString (lit "default"));
                                (lit "color", VString (lit "#FF6B6B"))])]);
          (lit "apns",
            VObject [(lit "payload",
                       VObject [(lit "aps",
                                  VObject [(lit "badge", VNumber 1);
                                           (lit "sound", VString (lit "default"))])])])]).

Definition code_is (e : error) (c : string) : bool :=
  match code e with
  | Some c' => str_eqb c' (lit c)
  | None => false
  end.

Definition code_value (e : error) : value :=
  match code e with
  | Some c => VString c
  | None => VUndefined
  end.

(** The error the [catch] block of [sendNotification] throws in place of
    the one it caught. *)
Definition specific_error (e : error) : error :=
  if code_is e "messaging/registration-token-not-registered" then
    Error (lit "FCM token is not registered or has expired")
  else if code_is e "messaging/invalid-registration-token" then
    Error (lit "FCM token format is invalid")
  else if code_is e "messaging/authentication-error" then
    Error (lit "Firebase service account authentication failed")
  else
    Error (lit "Firebase messaging error: " ++ message e).

(** The [try] block of [sendNotification]; [app] is the local variable. *)
Definition sendNotification_try (startTime : Z)
    (serviceAccount : value) (token title body : jsstring)
  : M (option App * World) SendResult :=
  app <- lift (_initializeFirebaseApp serviceAccount) ;;
  assign_local (Some app) ;;;
  message <- lift (_buildNotificationMessage token title body) ;;
  projectId <- of_result (read_prop serviceAccount (lit "project_id")) ;;
  lift (logger info (lit "Sending notification")
          (VObject [(lit "projectId", projectId);
                    (lit "tokenPreview", VString (substring_to token 20 ++ lit "..."));
                    (lit "title", VString title)])) ;;;
  response <- lift (sdk_send app message) ;;
  now <- lift Date_now ;;
  let duration := now - startTime in
  lift (logger success
          (lit "Notification sent successfully in " ++ render duration ++ lit "ms")
          (VObject [(lit "messageId", VString response);
                    (lit "duration", VString (render duration ++ lit "ms"))])) ;;;
  stamp <- lift Date_now ;;
  ret (mkSendResult response true (render duration ++ lit "ms") (toISOString stamp)).

(** The [catch] block of [sendNotification]. *)
Definition sendNotification_catch (startTime : Z) (token : jsstring) (error : error)
  : M (option App * World) SendResult :=
  now <- lift Date_now ;;
  let duration := now - startTime in
  lift (logger error_
          (lit "Firebase notification failed after " ++ render duration
             ++ lit "ms: " ++ message error)
          (VObject [(lit "errorCode", code_value error);
                    (lit "duration", VString (render duration ++ lit "ms"));
                    (lit "tokenPreview",
                      VString (match token with
                               | [] => lit "unknown"
                               | _ => substring_to token 20 ++ lit "..."
                               end))])) ;;;
  throw (specific_error error).

(** [try { ... } catch (error) { ... }] of [sendNotification], before its
    [finally] block: the dispatch and what it leaves to the caller. *)
Definition sendNotification_dispatch (startTime : Z)
    (serviceAccount : value) (token title body : jsstring)
  : M (option App * World) SendResult :=
  try_catch (sendNotification_try startTime serviceAccount token title body)
            (sendNotification_catch startTime token).

(** [sendNotification(serviceAccount, token, title, body)] *)
Definition sendNotification (serviceAccount : value) (token title body : jsstring)
  : M World SendResult :=
  with_local (@None App)
    (startTime <- lift Date_now ;;
     try_finally
       (sendNotification_dispatch startTime serviceAccount token title body)
       (app <- read_local ;; lift (_cleanupFirebaseApp app))).

End Service.

(** How often an app was torn down in a stretch of events. *)
Definition is_DeleteApp (e : event) : bool :=
  match e with
  | DeleteApp _ => true
  | _ => false
  end.

Definition teardowns (t : list event) : nat :=
  List.length (filter is_DeleteApp t).

End FirebaseNotificationService.

(* ================================================================== *)
(** * CryptoManager (src/utils/crypto.js) *)
(* ================================================================== *)

Module CryptoManager.

(** A [Buffer]: a sequence of octets. *)
Definition bytes := list N.

(** What [crypto.js] calls in Node and ECMAScript without defining it.
    - [JSON_stringify] gives [None] where [JSON.stringify] gives
      [undefined];
    - [sha256 key] is [createHash('sha256').update(key).digest()];
    - [createCipheriv] and [createDecipheriv] give the error thrown when
      the key or the IV does not fit ['aes-256-cbc'];
    - [cipher_run] is [update] followed by [final] on a cipher object,
      [decipher_run] the same on a decipher object, whose [final] throws
      on a wrong final block or padding;
    - [utf8_encode], [utf8_decode], [base64_encode], [base64_decode] are
      the codecs behind the encoding arguments of [update], [final] and
      [Buffer.from]; none of them throws. *)
Class NodeBuiltins := {
  JSON_stringify : value -> option jsstring;
  JSON_parse : jsstring -> result value;
  sha256 : jsstring -> bytes;
  createCipheriv : bytes -> bytes -> option error;
  cipher_run : bytes -> bytes -> bytes -> bytes;
  createDecipheriv : bytes -> bytes -> option error;
  decipher_run : bytes -> bytes -> bytes -> result bytes;
  utf8_encode : jsstring -> bytes;
  utf8_decode : bytes -> jsstring;
  base64_encode : bytes -> jsstring;
  base64_decode : jsstring -> bytes
}.

(** A string without lone surrogates ([String.prototype.isWellFormed]). *)
Definition is_high_surrogate (c : codeunit) : bool :=
  ((55296 <=? c) && (c <=? 56319))%N.
Definition is_low_surrogate (c : codeunit) : bool :=
  ((56320 <=? c) && (c <=? 57343))%N.

Fixpoint isWellFormed (s : jsstring) : bool :=
  match s with
  | [] => true
  | c :: rest =>
      if is_high_surrogate c then
        match rest with
        | d :: rest' => is_low_surrogate d && isWellFormed rest'
        | [] => false
        end
      else negb (is_low_surrogate c) && isWellFormed rest
  end.

(** The documented behaviour of these built-ins, as far as the codec
    depends on it.  [JSON_serializable] is the platform's notion of a value
    that [JSON.stringify] writes and [JSON.parse] reads back. *)
Class NodeBuiltinsLaws (B : NodeBuiltins) : Prop := {
  sha256_length : forall key, List.length (sha256 key) = 32%nat;
  createCipheriv_fits : forall key iv,
    List.length key = 32%nat -> List.length iv = 16%nat ->
    createCipheriv key iv = None;
  createDecipheriv_fits : forall key iv,
    List.length key = 32%nat -> List.length iv = 16%nat ->
    createDecipheriv key iv = None;
  decipher_cipher : forall key iv plain,
    List.length key = 32%nat -> List.length iv = 16%nat ->
    decipher_run key iv (cipher_run key iv plain) = Ok plain;
  base64_decode_encode : forall b, base64_decode (base64_encode b) = b;
  utf8_decode_encode : forall s,
    isWellFormed s = true -> utf8_decode (utf8_encode s) = s;
  JSON_stringify_well_formed : forall v s,
    JSON_stringify v = Some s -> isWellFormed s = true
}.

Definition or_throw (failure : option error) : result unit :=
  match failure with
  | Some e => Throw e
  | None => Ok tt
  end.

Section Codec.
Context `{NodeBuiltins}.

(** [this.ivLength] *)
Definition ivLength : nat := 16.

(** [_generateKeyHash(key)] *)
Definition _generateKeyHash (key : jsstring) : bytes := sha256 key.

(** [_createIV()]: [Buffer.alloc(this.ivLength, 0)] *)
Definition _createIV : bytes := repeat 0%N ivLength.

(** [typeof data === 'string' ? data : JSON.stringify(data)] *)
Definition jsonString_of (data : value) : option jsstring :=
  match data with
  | VString s => Some s
  | _ => JSON_stringify data
  end.

(** [encrypt(data, key)].  The two Base64 pieces that [update] and [final]
    return concatenate to the Base64 text of the whole ciphertext, because
    the cipher object carries the bytes of an incomplete group over. *)
Definition encrypt (data : value) (key : jsstring) : result jsstring :=
  match
    (let jsonString := jsonString_of data in
     let keyHash := _generateKeyHash key in
     let iv := _createIV in
     and_then (or_throw (createCipheriv keyHash iv)) (fun _ =>
     match jsonString with
     | None =>
         Throw (TypeError (lit "The " ++ [34%N] ++ lit "data" ++ [34%N]
                             ++ lit " argument must be of type string or an instance of "
                             ++ lit "Buffer, TypedArray, or DataView. Received undefined"))
     | Some jsonString =>
         let encrypted := base64_encode (cipher_run keyHash iv (utf8_encode jsonString)) in
         Ok encrypted
     end))
  with
  | Ok encrypted => Ok encrypted
  | Throw error => Throw (Error (lit "Encryption failed: " ++ message error))
  end.

(** [decrypt(encryptedData, key)] *)
Definition decrypt (encryptedData : jsstring) (key : jsstring) : result value :=
  match
    (let encryptedBuffer := base64_decode encryptedData in
     let keyHash := _generateKeyHash key in
     let iv := _createIV in
     and_then (or_throw (createDecipheriv keyHash iv)) (fun _ =>
     and_then (decipher_run keyHash iv encryptedBuffer) (fun plain =>
     let decrypted := utf8_decode plain in
     JSON_parse decrypted)))
  with
  | Ok v => Ok v
  | Throw error => Throw (Error (lit "Decryption failed: " ++ message error))
  end.

(** A value is JSON-serializable when [JSON.stringify] writes a text for
    it that [JSON.parse] reads back as the same value. *)
Definition JSON_serializable (c : value) : Prop :=
  exists s, JSON_stringify c = Some s /\ JSON_parse s = Ok c.

End Codec.

End CryptoManager.

(* ================================================================== *)
(** * RequestHandler, decrypt phase (src/middleware/request-handler.js) *)
(* ================================================================== *)

Module RequestHandler.
Import CryptoManager.

Local Open Scope monad_scope.

Section Handler.
Context `{NodeBuiltins}.

(** The block of [handleRequest] under the comment "Decrypt Firebase
    configuration"; [secretKey] is [config.get('secretKey')].  It ends
    with the decrypted service account, or with [None] once it has sent
    the error response and returned. *)
Definition decrypt_phase (firebaseConfig secretKey : jsstring) : M World (option value) :=
  try_catch
    (serviceAccount <- of_result (decrypt firebaseConfig secretKey) ;;
     logger debug (lit "Firebase configuration decrypted successfully") (VObject []) ;;;
     ret (Some serviceAccount))
    (fun decryptError =>
       logger error_ (lit "Decryption failed")
         (VObject [(lit "error", VString (message decryptError))]) ;;;
       emit (SendErrorResponse 400 (lit "Failed to decrypt Firebase configuration")
               (VObject [(lit "hint",
                           VString (lit "Verify that the encryption key matches "
                                      ++ lit "and the data is properly encrypted"))])) ;;;
       ret None).

End Handler.

(** What reaches the HTTP client, and what stays in the log. *)
Definition is_response (e : event) : bool :=
  match e with
  | SendErrorResponse _ _ _ => true
  | _ => false
  end.

Definition responses (t : list event) : list event := filter is_response t.

End RequestHandler.

(* ================================================================== *)
(** * A small instance of the built-ins *)
(* ================================================================== *)

(** A lawful instance of [NodeBuiltins] that runs inside Rocq, for
    evaluating the codec on concrete inputs: a compact JSON writer and
    reader for values without escapes, a text codec that stores one code
    unit per cell, and an additive stream cipher with one padding cell. *)
Module Sample.
Import CryptoManager FirebaseNotificationService.

Definition SyntaxError (msg : jsstring) : error := mkError SyntaxErrorClass msg None.

Definition plain_char (c : codeunit) : bool :=
  ((32 <=? c) && negb (c =? 34) && negb (c =? 92))%N.

Definition option_bind {A B} (o : option A) (k : A -> option B) : option B :=
  match o with
  | Some a => k a
  | None => None
  end.

Definition write_string (s : jsstring) : option jsstring :=
  if forallb plain_char s then Some ([34%N] ++ s ++ [34%N]) else None.

Fixpoint write (v : value) : option jsstring :=
  match v with
  | VUndefined => None
  | VNull => Some (lit "null")
  | VBool true => Some (lit "true")
  | VBool false => Some (lit "false")
  | VNumber z => Some (render z)
  | VString s => write_string s
  | VArray l =>
      option_bind
        ((fix elems (l : list value) : option jsstring :=
            match l with
            | [] => Some []
            | e :: rest =>
                option_bind (write e) (fun a =>
                option_bind (elems rest) (fun b =>
                Some (match rest with [] => a | _ => a ++ lit "," ++ b end)))
            end) l)
        (fun body => Some (lit "[" ++ body ++ lit "]"))
  | VObject fields =>
      option_bind
        ((fix members (fields : list (jsstring * value)) : option jsstring :=
            match fields with
            | [] => Some []
            | (k, e) :: rest =>
                option_bind (write_string k) (fun name =>
                option_bind (write e) (fun a =>
                option_bind (members rest) (fun b =>
                Some (match rest with
                      | [] => name ++ lit ":" ++ a
                      | _ => name ++ lit ":" ++ a ++ lit "," ++ b
                      end))))
            end) fields)
        (fun body => Some (lit "{" ++ body ++ lit "}"))
  end.

(** The characters of a string up to its closing quote. *)
Fixpoint read_chars (s : jsstring) : option (jsstring * jsstring) :=
  match s with
  | [] => None
  | c :: rest =>
      if (c =? 34)%N then Some ([], rest)
      else if plain_char c then
        option_bind (read_chars rest) (fun r => Some (c :: fst r, snd r))
      else None
  end.

Fixpoint read_digits (acc : Z) (s : jsstring) : Z * jsstring :=
  match s with
  | c :: rest =>
      if is_digit c then read_digits (acc * 10 + (Z.of_N c - 48)) rest
      else (acc, s)
  | [] => (acc, s)
  end.

Fixpoint read (fuel : nat) (s : jsstring) : option (value * jsstring) :=
  match fuel with
  | O => None
  | S fuel' =>
      match s with
      | 110 :: 117 :: 108 :: 108 :: rest => Some (VNull, rest)
      | 116 :: 114 :: 117 :: 101 :: rest => Some (VBool true, rest)
      | 102 :: 97 :: 108 :: 115 :: 101 :: rest => Some (VBool false, rest)
      | 34 :: rest =>
          option_bind (read_chars rest) (fun r => Some (VString (fst r), snd r))
      | 91 :: 93 :: rest => Some (VArray [], rest)
      | 91 :: rest =>
          option_bind (read_elems fuel' rest) (fun r => Some (VArray (fst r), snd r))
      | 123 :: 125 :: rest => Some (VObject [], rest)
      | 123 :: rest =>
          option_bind (read_members fuel' rest) (fun r => Some (VObject (fst r), snd r))
      | 45 :: c :: rest =>
          if is_digit c then
            let r := read_digits 0 (c :: rest) in Some (VNumber (- fst r), snd r)
          else None
      | c :: rest =>
          if is_digit c then
            let r := read_digits 0 (c :: rest) in Some (VNumber (fst r), snd r)
          else None
      | [] => None
      end
  end%N
with read_elems (fuel : nat) (s : jsstring) : option (list value * jsstring) :=
  match fuel with
  | O => None
  | S fuel' =>
      option_bind (read fuel' s) (fun r =>
      match snd r with
      | 44 :: rest =>
          option_bind (read_elems fuel' rest) (fun r' => Some (fst r :: fst r', snd r'))
      | 93 :: rest => Some ([fst r], rest)
      | _ => None
      end)
  end%N
with read_members (fuel : nat) (s : jsstring)
  : option (list (jsstring * value) * jsstring) :=
  match fuel with
  | O => None
  | S fuel' =>
      match s with
      | 34 :: s1 =>
          option_bind (read_chars s1) (fun k =>
          match snd k with
          | 58 :: s2 =>
              option_bind (read fuel' s2) (fun r =>
              match snd r with
              | 44 :: rest =>
                  option_bind (read_members fuel' rest) (fun r' =>
                  Some ((fst k, fst r) :: fst r', snd r'))
              | 125 :: rest => Some ([(fst k, fst r)], rest)
              | _ => None
              end)
          | _ => None
          end)
      | _ => None
      end
  end%N.

Definition stringify (v : value) : option jsstring :=
  match write v with
  | Some s => if isWellFormed s then Some s else None
  | None => None
  end.

Definition parse (s : jsstring) : result value :=
  match read (2 * List.length s + 2) s with
  | Some (v, []) => Ok v
  | _ => Throw (SyntaxError (lit "Unexpected token in JSON"))
  end.

(** The first 32 cells of the key, padded with zeros. *)
Definition digest (key : jsstring) : bytes := firstn 32 (key ++ repeat 0%N 32).

Definition fits (key iv : bytes) : option error :=
  if (List.length key =? 32)%nat then
    if (List.length iv =? 16)%nat then None
    else Some (TypeError (lit "Invalid initialization vector"))
  else Some (mkError PlainError (lit "Invalid key length") None).

Definition key_cell (key iv : bytes) : N := (hd 0 key + hd 0 iv + 1)%N.

Definition seal (key iv plain : bytes) : bytes :=
  List.map (N.add (key_cell key iv)) plain ++ [key_cell key iv].

Definition bad_decrypt : error := Error (lit "bad decrypt").

Fixpoint open_ (k : N) (sealed : bytes) : result bytes :=
  match sealed with
  | [] => Throw (Error (lit "wrong final block length"))
  | [c] => if (c =? k)%N then Ok [] else Throw bad_decrypt
  | c :: rest =>
      if (k <=? c)%N then
        match open_ k rest with
        | Ok plain => Ok ((c - k)%N :: plain)
        | Throw e => Throw e
        end
      else Throw bad_decrypt
  end.

Definition builtins : NodeBuiltins := {|
  JSON_stringify := stringify;
  JSON_parse := parse;
  sha256 := digest;
  createCipheriv := fits;
  cipher_run := seal;
  createDecipheriv := fits;
  decipher_run := fun key iv sealed => open_ (key_cell key iv) sealed;
  utf8_encode := fun s => s;
  utf8_decode := fun b => b;
  base64_encode := fun b => b;
  base64_decode := fun s => s
|}.

(** The credential of the specification's end-to-end scenario. *)
Definition credential : value :=
  VObject [(lit "type", VString (lit "service_account"));
           (lit "project_id", VString (lit "p"));
           (lit "private_key", VString (lit "...BEGIN PRIVATE KEY..."));
           (lit "client_email", VString (lit "a@b.com"))].

Definition secret : jsstring := lit "test_secret_key_32_chars_long!!!".

(** A decrypted credential whose [private_key] is an array. *)
Definition array_key_account : value :=
  VObject [(lit "type", VString (lit "service_account"));
           (lit "project_id", VString (lit "p"));
           (lit "private_key", VArray [VString (lit "BEGIN PRIVATE KEY")]);
           (lit "client_email", VString (lit "a@b.com"))].

(** A decrypted credential whose [private_key] is a number. *)
Definition number_key_account : value :=
  VObject [(lit "type", VString (lit "service_account"));
           (lit "project_id", VString (lit "p"));
           (lit "private_key", VNumber 5);
           (lit "client_email", VString (lit "a@b.com"))].


(** A world whose clock advances by a millisecond per reading, whose
    random source always renders as [draw], where every app initializes and
    deletes, and where [send] ends as [sent]. *)
Definition environment (sent : result jsstring) (draw : jsstring) : Environment := {|
  clock := fun n => 1700000000000 + Z.of_nat n;
  random36 := fun _ => draw;
  toISOString := render;
  initializeApp_fails := fun _ _ _ => None;
  send_outcome := fun _ _ _ => sent;
  deleteApp_fails := fun _ _ => None
|}.

(** [Math.random()] returned one half: [(0.5).toString(36)] is ["0.i"]. *)
Definition one_half : jsstring := lit "0.i".

Definition typical_draw : jsstring := lit "0.4fzyo82mvyr".

Definition fcm_token : jsstring := lit "mock_fcm_token_for_testing".

End Sample.

(* ================================================================== *)
(** * Vocabulary of the properties *)
(* ================================================================== *)

Module Properties.
Import RequestValidator FirebaseNotificationService.

(** A field of the payload that is a non-empty string. *)
Definition field_ok (v : value) : bool :=
  truthy v && type_tag_eqb (typeof v) TString.

(** The errors [validatePayload] has collected when it comes to the
    lengths: one for the missing fields, one for each field that is present
    and no string. *)
Definition field_errors (payload : value) : list jsstring :=
  let missingFields :=
    filter (fun field => negb (truthy (get payload field))) requiredFields in
  fold_left
    (fun errs field =>
       push_when
         (truthy (get payload field)
          && negb (type_tag_eqb (typeof (get payload field)) TString))
         errs (lit "Field '" ++ field ++ lit "' must be a string"))
    requiredFields
    (push_when ((0 <? List.length missingFields)%nat)
       [] (lit "Missing required fields: " ++ join (lit ", ") missingFields)).

(** The errors after the four length checks have come out as [long_title],
    [long_body], [short_token] and [short_config]. *)
Definition length_errors (errs : list jsstring)
    (long_title long_body short_token short_config : bool) : list jsstring :=
  push_when short_config
    (push_when short_token
       (push_when long_body
          (push_when long_title errs (lit "Title must be 100 characters or less"))
          (lit "Body must be 1000 characters or less"))
       (lit "FCM token appears to be invalid (too short)"))
    (lit "Firebase config appears to be invalid (too short)").

(** The header test on [private_key], as a proposition: a string with
    the marker as a substring, or an array with the marker as an element. *)
Definition has_header (private_key : value) : Prop :=
  (exists s, private_key = VString s /\
             str_includes s (lit "BEGIN PRIVATE KEY") = true) \/
  (exists l, private_key = VArray l /\ In (VString (lit "BEGIN PRIVATE KEY")) l).

(** The acceptance condition in the spec's words, read on typed fields:
    the value is a non-null object, each required field is present and
    non-empty, [type] is the literal, [private_key] is a string that contains
    the PEM header marker and [client_email] is a string that matches the
    e-mail pattern. *)
Definition spec_valid_service_account (v : value) : Prop :=
  is_object v = true /\
  (forall field, In field serviceAccountFields -> truthy (get v field) = true) /\
  get v (lit "type") = VString (lit "service_account") /\
  (exists s, get v (lit "private_key") = VString s /\
             str_includes s (lit "BEGIN PRIVATE KEY") = true) /\
  (exists s, get v (lit "client_email") = VString s /\
             Regex.test emailRegex s = true).

(** The language of a regular expression: [matches r s] when the whole
    of [s] is a word of [r]. *)
Inductive matches : Regex.regex -> jsstring -> Prop :=
| matches_eps : matches Regex.Eps []
| matches_class p c : p c = true -> matches (Regex.Class_ p) [c]
| matches_cat r1 r2 s1 s2 :
    matches r1 s1 -> matches r2 s2 -> matches (Regex.Cat r1 r2) (s1 ++ s2)
| matches_alt_l r1 r2 s : matches r1 s -> matches (Regex.Alt r1 r2) s
| matches_alt_r r1 r2 s : matches r2 s -> matches (Regex.Alt r1 r2) s
| matches_star_nil r : matches (Regex.Star r) []
| matches_star_app r s1 s2 :
    matches r s1 -> matches (Regex.Star r) s2 -> matches (Regex.Star r) (s1 ++ s2).

(** The shape of a rendered integer: digits, after a hyphen if negative. *)
Inductive numeral : jsstring -> Prop :=
| numeral_unsigned ds : ds <> [] -> forallb is_digit ds = true -> numeral ds
| numeral_signed ds : ds <> [] -> forallb is_digit ds = true -> numeral (hyphen :: ds).

(** [m] increments [appCounter] exactly [k] times, whether it returns or
    throws. *)
Definition counter_after {S A} (proj : S -> World) (m : M S A) (k : nat) : Prop :=
  forall s, appCounter (proj (snd (m s))) = Nat.iter k increment (appCounter (proj s)).

(** The world after some more events. *)
Definition log_event (w : World) (e : list event) : World :=
  mkWorld (appCounter w) (ticks w) (draws w) (trace w ++ e).

(** The metadata of the two log lines of [_cleanupFirebaseApp]. *)
Definition appName_meta (a : App) : value :=
  VObject [(lit "appName", VString (name a))].

(** The error response of the decrypt phase. *)
Definition decrypt_failure_response : event :=
  SendErrorResponse 400 (lit "Failed to decrypt Firebase configuration")
    (VObject [(lit "hint",
                VString (lit "Verify that the encryption key matches "
                           ++ lit "and the data is properly encrypted"))]).

End Properties.

(* ================================================================== *)
(** * RequestValidator, the sanitizer (src/utils/validator.js) *)
(* ================================================================== *)

Module Sanitizer.
Import Regex RequestValidator.

(** [String.prototype.trim]: the white space and line terminators that
    [trim] strips are the code units of the class [\s]. *)
Fixpoint trimStart (s : jsstring) : jsstring :=
  match s with
  | [] => []
  | c :: rest => if is_space c then trimStart rest else s
  end.

Definition trimEnd (s : jsstring) : jsstring := rev (trimStart (rev s)).

Definition trim (s : jsstring) : jsstring := trimEnd (trimStart s).

(** [_sanitizeString(str)] *)
Definition _sanitizeString (str : value) : jsstring :=
  match str with
  | VString s => trim s
  | _ => []
  end.

Record SanitizedPayload := mkSanitized {
  firebaseConfig : jsstring;
  token : jsstring;
  title : jsstring;
  body : jsstring
}.

(** [sanitizePayload(payload)]; reading a property of [null] or
    [undefined] throws. *)
Definition sanitizePayload (payload : value) : result SanitizedPayload :=
  match read_prop payload (lit "firebaseConfig") with
  | Throw e => Throw e
  | Ok firebaseConfig =>
      Ok (mkSanitized (_sanitizeString firebaseConfig)
            (_sanitizeString (get payload (lit "token")))
            (_sanitizeString (get payload (lit "title")))
            (_sanitizeString (get payload (lit "body"))))
  end.

(** The sanitized payload as the object it is. *)
Definition to_object (p : SanitizedPayload) : value :=
  VObject [(lit "firebaseConfig", VString (firebaseConfig p));
           (lit "token", VString (token p));
           (lit "title", VString (title p));
           (lit "body", VString (body p))].

End Sanitizer.

(* ================================================================== *)
(** * CryptoManager, the format check (src/utils/crypto.js) *)
(* ================================================================== *)

Module EncryptedFormat.
Import Regex.

(** [[A-Za-z0-9+/]] *)
Definition is_base64_char (c : codeunit) : bool :=
  ((65 <=? c) && (c <=? 90) || (97 <=? c) && (c <=? 122)
   || (48 <=? c) && (c <=? 57) || (c =? 43) || (c =? 47))%N.

(** [r{0,2}] *)
Definition at_most_twice (r : regex) : regex := Alt Eps (Cat r (Alt Eps r)).

(** [/^[A-Za-z0-9+/]*={0,2}$/] *)
Definition base64Regex : regex :=
  Cat (Star (Class_ is_base64_char)) (at_most_twice (chr "=")).

(** [isValidEncryptedFormat(encryptedData)]; nothing in its [try] block
    throws, so the [catch] branch is never taken. *)
Definition isValidEncryptedFormat (encryptedData : value) : bool :=
  match encryptedData with
  | VString s => test base64Regex s && (0 <? List.length s)%nat
  | _ => false
  end.

End EncryptedFormat.

(* ================================================================== *)
(** * Logger (src/utils/logger.js) *)
(* ================================================================== *)

Module Logger.

(** [this.levels]; [None] where the property read gives no number. *)
Definition levels (name : jsstring) : option Z :=
  if str_eqb name (lit "error") then Some 0
  else if str_eqb name (lit "warn") then Some 1
  else if str_eqb name (lit "info") then Some 2
  else if str_eqb name (lit "debug") then Some 3
  else None.

(** [this.levels.hasOwnProperty(level)] *)
Definition hasOwnLevel (name : jsstring) : bool :=
  match levels name with
  | Some _ => true
  | None => false
  end.

(** The logger object: its [level]. *)
Definition logger_state := jsstring.

(** [new Logger()], the exported instance. *)
Definition default_logger : logger_state := lit "info".

(** [_shouldLog(messageLevel)]: a comparison with an operand that is not
    a number is false. *)
Definition _shouldLog (level : logger_state) (messageLevel : jsstring) : bool :=
  match levels messageLevel, levels level with
  | Some m, Some l => m <=? l
  | _, _ => false
  end.

(** [setLevel(level)] *)
Definition setLevel (current : logger_state) (level : jsstring) : logger_state :=
  if hasOwnLevel level then level else current.

(** The level each logging method passes to [_shouldLog]. *)
Definition threshold (method : Process.level) : jsstring :=
  match method with
  | error_ => lit "error"
  | warn => lit "warn"
  | info => lit "info"
  | debug => lit "debug"
  | success => lit "info"
  end.

(** Whether a call of a logging method writes to the console. *)
Definition writes (level : logger_state) (method : Process.level) : bool :=
  _shouldLog level (threshold method).

End Logger.

(* ================================================================== *)
(** * HttpUtils, the body parser (src/utils/http.js) *)
(* ================================================================== *)

Module HttpUtils.
Import CryptoManager.

Local Open Scope monad_scope.

(** What the request stream emits, and the firing of the 30 second timer
    that [parseRequestBody] sets. *)
Inductive stream_event : Type :=
| Data (chunk : bytes)
| End_
| StreamError (e : error)
| Timeout.

(** The variables of one call of [parseRequestBody]: [body], [size], the
    state of the promise it returns and whether its timer is still set. *)
Record Parsing := mkParsing {
  body : jsstring;
  size : Z;
  settled : option (result value);
  timer : bool
}.

(** [const maxSize = 1024 * 1024] *)
Definition maxSize : Z := 1024 * 1024.

Definition started : Parsing := mkParsing [] 0 None true.

(** [resolve(data)] and [reject(error)]: a settled promise stays as it is. *)
Definition settle (r : result value) : M (Parsing * World) unit :=
  modify (fun pw =>
            match settled (fst pw) with
            | Some _ => pw
            | None => (mkParsing (body (fst pw)) (size (fst pw)) (Some r) (timer (fst pw)),
                       snd pw)
            end).

Definition resolve (data : value) : M (Parsing * World) unit := settle (Ok data).
Definition reject (e : error) : M (Parsing * World) unit := settle (Throw e).

(** [clearTimeout(timeout)] *)
Definition clearTimeout : M (Parsing * World) unit :=
  modify (fun pw => (mkParsing (body (fst pw)) (size (fst pw)) (settled (fst pw)) false,
                     snd pw)).

(** [Object.keys(data).length] *)
Definition Object_keys_length (data : value) : result Z :=
  match data with
  | VUndefined | VNull =>
      Throw (TypeError (lit "Cannot convert undefined or null to object"))
  | VBool _ | VNumber _ => Ok 0
  | VString s => Ok (Z.of_nat (List.length s))
  | VArray l => Ok (Z.of_nat (List.length l))
  | VObject fields => Ok (Z.of_nat (List.length fields))
  end.

Section Parser.
Context `{NodeBuiltins}.

(** [req.on('data', chunk => ...)] *)
Definition on_data (chunk : bytes) : M (Parsing * World) unit :=
  modify (fun pw => (mkParsing (body (fst pw))
                       (size (fst pw) + Z.of_nat (List.length chunk))
                       (settled (fst pw)) (timer (fst pw)),
                     snd pw)) ;;;
  size_now <- gets (fun pw => size (fst pw)) ;;
  if maxSize <? size_now then
    reject (Error (lit "Request payload too large"))
  else
    modify (fun pw => (mkParsing (body (fst pw) ++ utf8_decode chunk) (size (fst pw))
                         (settled (fst pw)) (timer (fst pw)),
                       snd pw)).

(** The two handlers of ['end'], in the order they are registered. *)
Definition on_end : M (Parsing * World) unit :=
  try_catch
    (text <- gets (fun pw => body (fst pw)) ;;
     if (List.length text =? 0)%nat then
       reject (Error (lit "Empty request body"))
     else
       data <- of_result (JSON_parse text) ;;
       size_now <- gets (fun pw => size (fst pw)) ;;
       fields <- of_result (Object_keys_length data) ;;
       lift (logger debug (lit "Request body parsed successfully")
               (VObject [(lit "size", VString (render size_now ++ lit " bytes"));
                         (lit "fields", VNumber fields)])) ;;;
       resolve data)
    (fun error =>
       lift (logger error_ (lit "JSON parsing failed")
               (VObject [(lit "error", VString (message error))])) ;;;
       reject (Error (lit "Invalid JSON in request body"))) ;;;
  clearTimeout.

(** The two handlers of ['error']. *)
Definition on_error (error : error) : M (Parsing * World) unit :=
  lift (logger error_ (lit "Request body parsing error")
          (VObject [(lit "error", VString (message error))])) ;;;
  reject error ;;;
  clearTimeout.

(** The callback of [setTimeout]: it runs once, and only if the timer
    has not been cleared. *)
Definition on_timeout : M (Parsing * World) unit :=
  armed <- gets (fun pw => timer (fst pw)) ;;
  if armed then
    modify (fun pw => (mkParsing (body (fst pw)) (size (fst pw)) (settled (fst pw)) false,
                       snd pw)) ;;;
    reject (Error (lit "Request timeout"))
  else ret tt.

Definition handle (ev : stream_event) : M (Parsing * World) unit :=
  match ev with
  | Data chunk => on_data chunk
  | End_ => on_end
  | StreamError e => on_error e
  | Timeout => on_timeout
  end.

Fixpoint handle_all (events : list stream_event) : M (Parsing * World) unit :=
  match events with
  | [] => ret tt
  | ev :: rest => handle ev ;;; handle_all rest
  end.

(** [parseRequestBody(req)] on a request whose stream emits [events]:
    how the promise is settled, if it is. *)
Definition parseRequestBody (events : list stream_event) (w : World)
  : option (result value) * World :=
  let end_state := snd (handle_all events (started, w)) in
  (settled (fst end_state), snd end_state).

End Parser.

End HttpUtils.

(* ================================================================== *)
(** * RequestHandler, the catch block (src/middleware/request-handler.js) *)
(* ================================================================== *)

Module ErrorResponse.

(** [this.serviceName] *)
Definition serviceName : jsstring := lit "AlwariDev Firebase Notification Handler".

(** "Determine appropriate error response" *)
Definition status_of (message : jsstring) : Z * jsstring :=
  if str_includes message (lit "token") then (400, message)
  else if str_includes message (lit "authentication") then
    (401, lit "Firebase authentication failed")
  else if str_includes message (lit "timeout") then (408, lit "Request timeout")
  else (500, lit "Internal server error").

(** The call of [httpUtils.sendErrorResponse] in the [catch] block of
    [handleRequest], for the caught [error] and the duration measured. *)
Definition failure_response (error : error) (totalDuration : Z) : event :=
  SendErrorResponse (fst (status_of (message error))) (snd (status_of (message error)))
    (VObject [(lit "duration", VString (render totalDuration ++ lit "ms"));
              (lit "service", VString serviceName)]).

End ErrorResponse.

(* ================================================================== *)
(** * FirebaseNotificationHandler, the library entry (index.js) *)
(* ================================================================== *)

Module FirebaseNotificationHandler.
Import RequestValidator CryptoManager.

Local Open Scope monad_scope.

(** The object literal [{ firebaseConfig: encryptedServiceAccount, token,
    title, body }]. *)
Definition payload_of (encryptedServiceAccount token title body : jsstring) : value :=
  VObject [(lit "firebaseConfig", VString encryptedServiceAccount);
           (lit "token", VString token);
           (lit "title", VString title);
           (lit "body", VString body)].

(** The log line of the [catch] block. *)
Definition failure_line (error : error) : event :=
  Log error_ (lit "Send notification failed")
    (VObject [(lit "error", VString (message error))]).

Section Library.
Context `{Environment} `{NodeBuiltins} `{NumericStrings}.

(** [sendNotification({ encryptedServiceAccount, secretKey, token,
    title, body })] with the default collaborators, on parameters of their
    documented type. *)
Definition sendNotification
    (encryptedServiceAccount secretKey token title body : jsstring)
  : M World FirebaseNotificationService.SendResult :=
  try_catch
    (validation <-
       of_result (validatePayload (payload_of encryptedServiceAccount token title body)) ;;
     (if negb (isValid validation)
      then throw (Error (lit "Validation failed: " ++ join (lit ", ") (errors validation)))
      else ret tt) ;;;
     serviceAccount <- of_result (decrypt encryptedServiceAccount secretKey) ;;
     serviceAccountValidation <- of_result (validateServiceAccount serviceAccount) ;;
     (if negb (isValid serviceAccountValidation)
      then throw (Error (lit "Invalid service account: "
                           ++ join (lit ", ") (errors serviceAccountValidation)))
      else ret tt) ;;;
     FirebaseNotificationService.sendNotification serviceAccount token title body)
    (fun error =>
       emit (failure_line error) ;;;
       throw error).

End Library.

End FirebaseNotificationHandler.

(* ================================================================== *)
(** * More vocabulary *)
(* ================================================================== *)

Module Counting.

Definition is_Send (e : event) : bool :=
  match e with
  | Send _ _ => true
  | _ => false
  end.

Definition is_InitializeApp (e : event) : bool :=
  match e with
  | InitializeApp _ _ => true
  | _ => false
  end.

Definition is_Log (e : event) : bool :=
  match e with
  | Log _ _ _ => true
  | _ => false
  end.

(** How often a message was sent, and an app initialized, in a stretch of
    events. *)
Definition sends (t : list event) : nat := List.length (filter is_Send t).

Definition initializations (t : list event) : nat :=
  List.length (filter is_InitializeApp t).

(** The name under which the first app of a call is initialized. *)
Definition next_app_name `{Environment} (w : World) : jsstring :=
  FirebaseNotificationService.app_name (clock (S (ticks w)))
    (FirebaseNotificationService.increment (appCounter w))
    (substring_from (random36 (draws w)) 7).

(** The total size of the chunks and their text, decoded chunk by chunk. *)
Definition total_size (chunks : list CryptoManager.bytes) : Z :=
  fold_right (fun chunk n => Z.of_nat (List.length chunk) + n) 0 chunks.

Definition text_of `{CryptoManager.NodeBuiltins} (chunks : list CryptoManager.bytes)
  : jsstring :=
  List.concat (List.map CryptoManager.utf8_decode chunks).

(** The rejection of a body that cannot be read. *)
Definition invalid_json : result value :=
  Throw (Error (lit "Invalid JSON in request body")).

End Counting.

(* ================================================================== *)
(** * More concrete inputs *)
(* ================================================================== *)

Module Inputs.

(** Ten spaces. *)
Definition blank_token : jsstring := repeat 32%N 10.

(** Fifty letters, as a stand-in for an encrypted configuration. *)
Definition fifty : jsstring := repeat 65%N 50.

(** A payload that [validatePayload] accepts although its token is blank. *)
Definition blank_token_payload : value :=
  VObject [(lit "firebaseConfig", VString fifty);
           (lit "token", VString blank_token);
           (lit "title", VString (lit " Hello "));
           (lit "body", VString (lit "Test"))].

(** No numeric strings: every string converts to NaN. *)
Definition no_numbers : NumericStrings := {| StringToNumber := fun _ => None |}.

(** A world whose SDK refuses every credential. *)
Definition refusing_environment : Environment := {|
  clock := fun n => 1700000000000 + Z.of_nat n;
  random36 := fun _ => Sample.typical_draw;
  toISOString := render;
  initializeApp_fails := fun _ _ _ => Some (Error (lit "Invalid PEM formatted message."));
  send_outcome := fun _ _ _ => Ok [];
  deleteApp_fails := fun _ _ => None
|}.



(** A world whose clock and random source do not move. *)
Definition frozen : Environment := {|
  clock := fun _ => 1700000000000;
  random36 := fun _ => Sample.typical_draw;
  toISOString := render;
  initializeApp_fails := fun _ _ _ => None;
  send_outcome := fun _ _ _ => Ok [];
  deleteApp_fails := fun _ _ => None
|}.

(** The service after 2^53 names have been generated. *)
Definition worn_out : World := mkWorld (2 ^ 53) 0 0 [].

(** A title of 101 letters. *)
Definition long_title : jsstring := repeat 65%N 101.


End Inputs.

(* ================================================================== *)
(** * Facts about the validators *)
(* ================================================================== *)

Module ValidatorFacts.
Import RequestValidator Properties.

Lemma push_when_nil (c : bool) (l : list jsstring) (x : jsstring) :
  push_when c l x = [] <-> c = false /\ l = [].
Proof.
  unfold push_when. destruct c; split.
  - intros E. destruct l; discriminate E.
  - intros [E _]. discriminate E.
  - intros E. split; [reflexivity | exact E].
  - intros [_ E]. exact E.
Qed.

Lemma length_eqb_0 {A} (l : list A) : (List.length l =? 0)%nat = true <-> l = [].
Proof. destruct l; simpl; split; intros E; try reflexivity; discriminate E. Qed.

Lemma field_ok_string (v : value) :
  field_ok v = true <-> exists s, v = VString s /\ s <> [].
Proof.
  unfold field_ok. split.
  - destruct v; simpl; intros E; try discriminate E;
      try (rewrite andb_false_r in E; discriminate E).
    exists s. split; [reflexivity|]. destruct s; [discriminate E | discriminate].
  - intros (s & -> & Hs). destruct s; [contradiction | reflexivity].
Qed.

Lemma missing_none (f : jsstring -> bool) (a b c d : jsstring) :
  (0 <? List.length (filter (fun x => negb (f x)) [a; b; c; d]))%nat = false <->
  f a = true /\ f b = true /\ f c = true /\ f d = true.
Proof.
  cbn [filter].
  destruct (f a), (f b), (f c), (f d); cbn; split; intros E;
    try discriminate E; try reflexivity; try tauto;
    repeat match goal with H : _ /\ _ |- _ => destruct H end; discriminate.
Qed.

(** No error before the length checks: the four fields are non-empty
    strings. *)
Lemma field_errors_nil (payload : value) :
  field_errors payload = [] <->
  field_ok (get payload (lit "firebaseConfig")) = true /\
  field_ok (get payload (lit "token")) = true /\
  field_ok (get payload (lit "title")) = true /\
  field_ok (get payload (lit "body")) = true.
Proof.
  unfold field_errors, requiredFields, field_ok. cbv zeta. cbn [fold_left].
  rewrite !push_when_nil.
  rewrite (missing_none (fun field => truthy (get payload field))).
  generalize (get payload (lit "firebaseConfig")) (get payload (lit "token"))
             (get payload (lit "title")) (get payload (lit "body")).
  intros fc tk ti bo. split.
  - intros (B4 & B3 & B2 & B1 & (T1 & T2 & T3 & T4) & _).
    rewrite T1, T2, T3, T4 in *. cbn [andb] in *.
    apply negb_false_iff in B1, B2, B3, B4.
    rewrite B1, B2, B3, B4. repeat split.
  - intros (F1 & F2 & F3 & F4).
    apply andb_true_iff in F1, F2, F3, F4.
    destruct F1 as [T1 S1], F2 as [T2 S2], F3 as [T3 S3], F4 as [T4 S4].
    rewrite T1, T2, T3, T4, S1, S2, S3, S4.
    cbn [andb negb]. repeat split; reflexivity.
Qed.

Lemma length_errors_nil (errs : list jsstring) (b1 b2 b3 b4 : bool) :
  length_errors errs b1 b2 b3 b4 = [] <->
  errs = [] /\ b1 = false /\ b2 = false /\ b3 = false /\ b4 = false.
Proof. unfold length_errors. rewrite !push_when_nil. tauto. Qed.



Lemma get_string_is_object (payload : value) (k s : jsstring) :
  get payload k = VString s -> exists fields, payload = VObject fields.
Proof.
  destruct payload; simpl; try discriminate.
  - destruct (str_eqb k (lit "length")); discriminate.
  - destruct (str_eqb k (lit "length")); discriminate.
  - intros _. exists fields. reflexivity.
Qed.

(** An object without an own [toString] has a string conversion, and
    one with it has none. *)
Lemma ToString_object (fields : list (jsstring * value)) :
  ToString (VObject fields) =
    if has_own (lit "toString") fields
    then Throw (TypeError (lit "Cannot convert object to primitive value"))
    else Ok (lit "[object Object]").
Proof. reflexivity. Qed.

Section Payload.
Context `{NumericStrings}.

Lemma gt_length (s : jsstring) (n : Z) :
  gt (get (VString s) (lit "length")) n = Ok (n <? Z.of_nat (List.length s)).
Proof. reflexivity. Qed.

Lemma lt_length (s : jsstring) (n : Z) :
  lt (get (VString s) (lit "length")) n = Ok (Z.of_nat (List.length s) <? n).
Proof. reflexivity. Qed.

(** A comparison throws exactly when the conversion of its operand does. *)
Lemma gt_throws (v : value) (n : Z) (e : error) :
  gt v n = Throw e <-> ToNumber v = Throw e.
Proof.
  unfold gt. destruct (ToNumber v) as [x | e0]; cbn [and_then]; split; intros E;
    try discriminate E; injection E as <-; reflexivity.
Qed.

Lemma lt_throws (v : value) (n : Z) (e : error) :
  lt v n = Throw e <-> ToNumber v = Throw e.
Proof.
  unfold lt. destruct (ToNumber v) as [x | e0]; cbn [and_then]; split; intros E;
    try discriminate E; injection E as <-; reflexivity.
Qed.

Lemma and_also_throws (a : bool) (b : result bool) (e : error) :
  and_also a b = Throw e <-> a = true /\ b = Throw e.
Proof.
  unfold and_also. destruct a; split.
  - intros E. split; [reflexivity | exact E].
  - intros [_ E]. exact E.
  - discriminate.
  - intros [E _]. discriminate E.
Qed.

(** The four length checks of [validatePayload], in the order of the
    source. *)
Lemma validatePayload_object (payload : value) :
  is_object payload = true ->
  validatePayload payload =
    let title := get payload (lit "title") in
    let body := get payload (lit "body") in
    let token := get payload (lit "token") in
    let firebaseConfig := get payload (lit "firebaseConfig") in
    and_then (and_also (truthy title) (gt (get title (lit "length")) 100))
      (fun b1 =>
    and_then (and_also (truthy body) (gt (get body (lit "length")) 1000))
      (fun b2 =>
    and_then (and_also (truthy token) (lt (get token (lit "length")) 10))
      (fun b3 =>
    and_then (and_also (truthy firebaseConfig)
                (lt (get firebaseConfig (lit "length")) 50))
      (fun b4 =>
    let errs := length_errors (field_errors payload) b1 b2 b3 b4 in
    Ok (mkValidation (List.length errs =? 0)%nat errs))))).
Proof.
  intros O. unfold is_object in O. apply andb_true_iff in O. destruct O as [O1 O2].
  unfold validatePayload. rewrite O1, O2. reflexivity.
Qed.

Lemma validatePayload_not_object (payload : value) :
  is_object payload = false ->
  validatePayload payload =
    Ok (mkValidation false [lit "Request payload must be a valid JSON object"]).
Proof.
  unfold is_object, validatePayload. intros E.
  destruct (truthy payload); simpl in *; [rewrite E|]; reflexivity.
Qed.

(** What [validatePayload] returns on an object, if it returns. *)
Lemma validatePayload_returns (payload : value) (r : ValidationResult) :
  is_object payload = true ->
  validatePayload payload = Ok r ->
  exists b1 b2 b3 b4,
    and_also (truthy (get payload (lit "title")))
      (gt (get (get payload (lit "title")) (lit "length")) 100) = Ok b1 /\
    and_also (truthy (get payload (lit "body")))
      (gt (get (get payload (lit "body")) (lit "length")) 1000) = Ok b2 /\
    and_also (truthy (get payload (lit "token")))
      (lt (get (get payload (lit "token")) (lit "length")) 10) = Ok b3 /\
    and_also (truthy (get payload (lit "firebaseConfig")))
      (lt (get (get payload (lit "firebaseConfig")) (lit "length")) 50) = Ok b4 /\
    r = mkValidation
          (List.length (length_errors (field_errors payload) b1 b2 b3 b4) =? 0)%nat
          (length_errors (field_errors payload) b1 b2 b3 b4).
Proof.
  intros O. rewrite (validatePayload_object _ O). cbv zeta.
  destruct (and_also (truthy (get payload (lit "title"))) _) as [b1 | e];
    [| discriminate].
  destruct (and_also (truthy (get payload (lit "body"))) _) as [b2 | e];
    [| discriminate].
  destruct (and_also (truthy (get payload (lit "token"))) _) as [b3 | e];
    [| discriminate].
  destruct (and_also (truthy (get payload (lit "firebaseConfig"))) _) as [b4 | e];
    [| discriminate].
  cbn [and_then]. intros E. injection E as <-.
  exists b1, b2, b3, b4. repeat split; reflexivity.
Qed.

(** [validatePayload] throws exactly when one of its length checks does. *)
Lemma validatePayload_throws (payload : value) :
  (exists e, validatePayload payload = Throw e) <->
  is_object payload = true /\
  exists field, In field requiredFields /\
    truthy (get payload field) = true /\
    exists e, ToNumber (get (get payload field) (lit "length")) = Throw e.
Proof.
  destruct (is_object payload) eqn:O.
  - rewrite (validatePayload_object _ O). cbv zeta. unfold requiredFields.
    destruct (and_also (truthy (get payload (lit "title"))) _) as [b1 | e1] eqn:C1.
    2:{ split; [| intros _; exists e1; reflexivity].
        intros _. split; [reflexivity|]. apply and_also_throws in C1.
        destruct C1 as [T C1]. apply gt_throws in C1.
        exists (lit "title"). split; [simpl; tauto|]. split; [exact T|].
        exists e1. exact C1. }
    destruct (and_also (truthy (get payload (lit "body"))) _) as [b2 | e2] eqn:C2.
    2:{ split; [| intros _; exists e2; reflexivity].
        intros _. split; [reflexivity|]. apply and_also_throws in C2.
        destruct C2 as [T C2]. apply gt_throws in C2.
        exists (lit "body"). split; [simpl; tauto|]. split; [exact T|].
        exists e2. exact C2. }
    destruct (and_also (truthy (get payload (lit "token"))) _) as [b3 | e3] eqn:C3.
    2:{ split; [| intros _; exists e3; reflexivity].
        intros _. split; [reflexivity|]. apply and_also_throws in C3.
        destruct C3 as [T C3]. apply lt_throws in C3.
        exists (lit "token"). split; [simpl; tauto|]. split; [exact T|].
        exists e3. exact C3. }
    destruct (and_also (truthy (get payload (lit "firebaseConfig"))) _)
      as [b4 | e4] eqn:C4.
    2:{ split; [| intros _; exists e4; reflexivity].
        intros _. split; [reflexivity|]. apply and_also_throws in C4.
        destruct C4 as [T C4]. apply lt_throws in C4.
        exists (lit "firebaseConfig"). split; [simpl; tauto|]. split; [exact T|].
        exists e4. exact C4. }
    cbn [and_then]. split; [intros (e & E); discriminate E|].
    intros (_ & field & I & T & e & E). exfalso.
    assert (G : forall n, gt (get (get payload field) (lit "length")) n = Throw e)
      by (intros n; apply gt_throws; exact E).
    assert (L : forall n, lt (get (get payload field) (lit "length")) n = Throw e)
      by (intros n; apply lt_throws; exact E).
    destruct I as [<- | [<- | [<- | [<- | []]]]].
    + rewrite T, L in C4. discriminate C4.
    + rewrite T, L in C3. discriminate C3.
    + rewrite T, G in C1. discriminate C1.
    + rewrite T, G in C2. discriminate C2.
  - rewrite (validatePayload_not_object _ O). split.
    + intros (e & E). discriminate E.
    + intros (F & _). discriminate F.
Qed.

(** [validatePayload] returns when each field is absent or a string. *)
Lemma validatePayload_of_strings (payload : value) :
  (forall field, In field requiredFields ->
     truthy (get payload field) = false \/ typeof (get payload field) = TString) ->
  exists r, validatePayload payload = Ok r.
Proof.
  intros Fields. destruct (validatePayload payload) as [r | e] eqn:E;
    [exists r; reflexivity|]. exfalso.
  destruct (proj1 (validatePayload_throws payload) (ex_intro _ e E))
    as (_ & field & I & T & e' & N).
  destruct (Fields field I) as [F | S]; [rewrite F in T; discriminate T|].
  destruct (get payload field); try discriminate S. discriminate N.
Qed.

(** The payloads that [validatePayload] accepts. *)
Lemma validatePayload_accepts (payload : value) :
  (exists r, validatePayload payload = Ok r /\ isValid r = true) <->
  exists firebaseConfig token title body,
    get payload (lit "firebaseConfig") = VString firebaseConfig /\
    get payload (lit "token") = VString token /\
    get payload (lit "title") = VString title /\
    get payload (lit "body") = VString body /\
    (50 <= List.length firebaseConfig)%nat /\
    (10 <= List.length token)%nat /\
    (1 <= List.length title <= 100)%nat /\
    (1 <= List.length body <= 1000)%nat.
Proof.
  split.
  - intros (r & E & V).
    destruct (is_object payload) eqn:O;
      [| rewrite (validatePayload_not_object _ O) in E; injection E as <-;
         discriminate V].
    destruct (validatePayload_returns _ _ O E) as (b1 & b2 & b3 & b4 & C1 & C2 & C3 & C4 & ->).
    cbn [isValid] in V. apply length_eqb_0, length_errors_nil in V.
    destruct V as (F & -> & -> & -> & ->).
    apply field_errors_nil in F. destruct F as (F1 & F2 & F3 & F4).
    apply field_ok_string in F1, F2, F3, F4.
    destruct F1 as (fc & E1 & N1), F2 as (tk & E2 & N2),
             F3 as (ti & E3 & N3), F4 as (bo & E4 & N4).
    rewrite E1 in C4. rewrite E2 in C3. rewrite E3 in C1. rewrite E4 in C2.
    rewrite gt_length in C1, C2. rewrite lt_length in C3, C4.
    assert (Tr : forall s : jsstring, s <> [] -> truthy (VString s) = true)
      by (intros s N; destruct s; [contradiction | reflexivity]).
    rewrite (Tr _ N1) in C4. rewrite (Tr _ N2) in C3.
    rewrite (Tr _ N3) in C1. rewrite (Tr _ N4) in C2.
    cbn [and_also] in C1, C2, C3, C4.
    injection C1 as C1. injection C2 as C2. injection C3 as C3. injection C4 as C4.
    apply Z.ltb_ge in C1, C2, C3, C4.
    exists fc, tk, ti, bo.
    assert (L3 : (1 <= List.length ti)%nat) by (destruct ti; [contradiction | simpl; lia]).
    assert (L4 : (1 <= List.length bo)%nat) by (destruct bo; [contradiction | simpl; lia]).
    repeat split; try assumption; lia.
  - intros (fc & tk & ti & bo & E1 & E2 & E3 & E4 & B1 & B2 & B3 & B4).
    destruct (get_string_is_object _ _ _ E1) as (fields & ->).
    exists (mkValidation true []). split; [| reflexivity].
    rewrite (validatePayload_object (VObject fields) eq_refl). cbv zeta.
    assert (F : field_errors (VObject fields) = []).
    { apply field_errors_nil. rewrite E1, E2, E3, E4.
      repeat split; apply field_ok_string; eexists; (split; [reflexivity|]);
        intros ->; simpl in *; lia. }
    rewrite F, E1, E2, E3, E4, !gt_length, !lt_length.
    assert (Tr : forall s : jsstring, (1 <= List.length s)%nat -> truthy (VString s) = true)
      by (intros s L; destruct s; [simpl in L; lia | reflexivity]).
    rewrite (Tr fc), (Tr tk), (Tr ti), (Tr bo) by lia.
    cbn [and_also and_then].
    replace (100 <? Z.of_nat (List.length ti)) with false
      by (symmetry; apply Z.ltb_ge; lia).
    replace (1000 <? Z.of_nat (List.length bo)) with false
      by (symmetry; apply Z.ltb_ge; lia).
    replace (Z.of_nat (List.length tk) <? 10) with false
      by (symmetry; apply Z.ltb_ge; lia).
    replace (Z.of_nat (List.length fc) <? 50) with false
      by (symmetry; apply Z.ltb_ge; lia).
    reflexivity.
Qed.


End Payload.
End ValidatorFacts.

Module ServiceAccountFacts.
Import RequestValidator Properties ValidatorFacts.

Lemma str_eqb_eq (a b : jsstring) : str_eqb a b = true <-> a = b.
Proof.
  unfold str_eqb. destruct (list_eq_dec N.eq_dec a b); split; intros E;
    try reflexivity; try assumption; try discriminate E; contradiction.
Qed.

Lemma is_literal_eq (v : value) (s : jsstring) :
  is_literal v s = true <-> v = VString s.
Proof.
  destruct v; simpl; try (split; discriminate).
  rewrite str_eqb_eq. split; [intros ->; reflexivity | intros E; injection E; trivial].
Qed.

Lemma includes_true (what : jsstring) (v : value) :
  includes what v (lit "BEGIN PRIVATE KEY") = Ok true <-> has_header v.
Proof.
  unfold has_header. destruct v; simpl;
    try (split; [discriminate | intros [(s0 & E & _) | (l0 & E & _)]; discriminate E]).
  - split.
    + intros E. left. exists s. split; [reflexivity | congruence].
    + intros [(s0 & E & I) | (l0 & E & _)]; [| discriminate E].
      injection E as <-. rewrite I. reflexivity.
  - split.
    + intros E. right. exists l. split; [reflexivity|].
      assert (X : existsb (fun e => match e with
                                    | VString s => str_eqb s (lit "BEGIN PRIVATE KEY")
                                    | _ => false
                                    end) l = true) by congruence.
      apply existsb_exists in X. destruct X as (e & I & P).
      destruct e; try discriminate P. apply str_eqb_eq in P. subst s. exact I.
    + intros [(s0 & E & _) | (l0 & E & I)]; [discriminate E|].
      injection E as <-. f_equal. apply existsb_exists.
      exists (VString (lit "BEGIN PRIVATE KEY")). split; [exact I|].
      apply str_eqb_eq. reflexivity.
Qed.

Lemma _isValidEmail_true (email : value) :
  _isValidEmail email = Ok true <->
  exists text, ToString email = Ok text /\ Regex.test emailRegex text = true.
Proof.
  unfold _isValidEmail. destruct (ToString email) as [text | e]; cbn [and_then]; split.
  - intros E. exists text. split; [reflexivity|]. congruence.
  - intros (text' & E & T). injection E as <-. rewrite T. reflexivity.
  - discriminate.
  - intros (text' & E & _). discriminate E.
Qed.

Lemma missing_fields_nil (f : jsstring -> bool) (a b c d : jsstring) (m : jsstring -> jsstring) :
  fold_left (fun errs field => push_when (negb (f field)) errs (m field)) [a; b; c; d] [] = [] <->
  f a = true /\ f b = true /\ f c = true /\ f d = true.
Proof.
  cbn [fold_left]. rewrite !push_when_nil, !negb_false_iff. tauto.
Qed.

Lemma accepts_iff (v : value) :
  is_object v = true ->
  (exists r, validateServiceAccount v = Ok r /\ isValid r = true) <->
  (truthy (get v (lit "project_id")) = true /\
   truthy (get v (lit "private_key")) = true /\
   truthy (get v (lit "client_email")) = true /\
   truthy (get v (lit "type")) = true) /\
  is_literal (get v (lit "type")) (lit "service_account") = true /\
  includes (lit "serviceAccount.private_key") (get v (lit "private_key"))
    (lit "BEGIN PRIVATE KEY") = Ok true /\
  _isValidEmail (get v (lit "client_email")) = Ok true.
Proof.
  intros O. unfold is_object in O. apply andb_true_iff in O. destruct O as [O1 O2].
  unfold validateServiceAccount, serviceAccountFields.
  rewrite O1, O2. cbn [negb orb]. cbv zeta.
  pose proof (missing_fields_nil (fun field => truthy (get v field))
                (lit "project_id") (lit "private_key") (lit "client_email") (lit "type")
                (fun field => lit "Missing required service account field: " ++ field)) as MF.
  cbv beta in MF.
  set (errors1 := fold_left _ _ _) in *.
  generalize dependent errors1. intros errors1 MF.
  generalize dependent (get v (lit "project_id")).
  generalize dependent (get v (lit "private_key")).
  generalize dependent (get v (lit "client_email")).
  generalize dependent (get v (lit "type")).
  intros ty ce pk pid MF.
  destruct (truthy pk) eqn:Tpk.
  - destruct (includes (lit "serviceAccount.private_key") pk (lit "BEGIN PRIVATE KEY"))
      as [b | e].
    + destruct (truthy ce) eqn:Tce.
      * destruct (_isValidEmail ce) as [ok | e].
        -- split.
           ++ intros (r & E & V). injection E as <-. cbn [isValid] in V.
              apply length_eqb_0 in V. rewrite !push_when_nil in V.
              destruct V as (A1 & A2 & A3 & A4). apply MF in A4.
              destruct A4 as (T1 & _ & T3 & T4).
              rewrite T4 in A3. cbn [andb] in *.
              apply negb_false_iff in A1, A2, A3. subst b ok. auto 10.
           ++ intros ((T1 & _ & T3 & T4) & L & I & Em).
              injection I as ->. injection Em as ->.
              eexists. split; [reflexivity|]. cbn [isValid].
              apply length_eqb_0. rewrite !push_when_nil.
              rewrite T4, L. cbn [andb negb].
              repeat split. apply MF. auto.
        -- split.
           ++ intros (r & E & _). discriminate E.
           ++ intros (_ & _ & _ & Em). discriminate Em.
      * split.
        -- intros (r & E & V). injection E as <-. cbn [isValid] in V.
           apply length_eqb_0 in V. rewrite !push_when_nil in V.
           assert (A4 : errors1 = []) by tauto. apply MF in A4.
           destruct A4 as (_ & _ & T3 & _). discriminate T3.
        -- intros ((_ & _ & T3 & _) & _). discriminate T3.
    + split.
      * intros (r & E & _). discriminate E.
      * intros (_ & _ & I & _). discriminate I.
  - split.
    + intros (r & E & V).
      assert (X : exists errs, r = mkValidation (List.length errs =? 0)%nat errs /\
                               (errs = [] -> errors1 = [])).
      { destruct (truthy ce).
        - destruct (_isValidEmail ce) as [ok | e]; [| discriminate E].
          injection E as <-. eexists. split; [reflexivity|].
          rewrite !push_when_nil. tauto.
        - injection E as <-. eexists. split; [reflexivity|].
          rewrite !push_when_nil. tauto. }
      destruct X as (errs & -> & X). cbn [isValid] in V.
      apply length_eqb_0 in V. apply X, MF in V.
      destruct V as (_ & T2 & _). discriminate T2.
    + intros ((_ & T2 & _) & _). discriminate T2.
Qed.

End ServiceAccountFacts.

Module RegexFacts.
Import Regex Properties.

Lemma matches_empty_inv (s : jsstring) : ~ matches Empty s.
Proof. intros M. inversion M. Qed.

Lemma matches_eps_inv (s : jsstring) : matches Eps s -> s = [].
Proof. intros M. inversion M. reflexivity. Qed.

Lemma matches_class_inv (p : codeunit -> bool) (s : jsstring) :
  matches (Class_ p) s -> exists c, s = [c] /\ p c = true.
Proof. intros M. inversion M; subst. eexists. split; [reflexivity | assumption]. Qed.

Lemma matches_cat_inv (r1 r2 : regex) (s : jsstring) :
  matches (Cat r1 r2) s ->
  exists s1 s2, s = s1 ++ s2 /\ matches r1 s1 /\ matches r2 s2.
Proof.
  intros M. inversion M; subst. eexists _, _. repeat split; eassumption.
Qed.

Lemma matches_alt_inv (r1 r2 : regex) (s : jsstring) :
  matches (Alt r1 r2) s -> matches r1 s \/ matches r2 s.
Proof. intros M. inversion M; subst; [left | right]; assumption. Qed.

Lemma nullable_matches (r : regex) : nullable r = true <-> matches r [].
Proof.
  induction r; simpl.
  - split; [discriminate | intros M; destruct (matches_empty_inv _ M)].
  - split; [intros _; constructor | reflexivity].
  - split; [discriminate|].
    intros M. apply matches_class_inv in M. destruct M as (c & E & _). discriminate E.
  - rewrite andb_true_iff, IHr1, IHr2. split.
    + intros [M1 M2]. exact (matches_cat _ _ [] [] M1 M2).
    + intros M. apply matches_cat_inv in M. destruct M as (s1 & s2 & E & M1 & M2).
      symmetry in E. apply app_eq_nil in E. destruct E as [-> ->]. split; assumption.
  - rewrite orb_true_iff, IHr1, IHr2. split.
    + intros [M | M]; [apply matches_alt_l | apply matches_alt_r]; exact M.
    + apply matches_alt_inv.
  - split; [intros _; constructor | reflexivity].
Qed.

Lemma matches_star_cons (r : regex) (c : codeunit) (s : jsstring) :
  matches (Star r) (c :: s) ->
  exists s1 s2, s = s1 ++ s2 /\ matches r (c :: s1) /\ matches (Star r) s2.
Proof.
  intros M. remember (Star r) as r0 eqn:Er. remember (c :: s) as s0 eqn:Es.
  revert s Es. induction M as [| | | | | r' | r' s1 s2 M1 _ M2 IH2]; intros t Es;
    try discriminate Er; try discriminate Es.
  injection Er as ->. destruct s1 as [| c' s1].
  - simpl in Es. apply (IH2 eq_refl t Es).
  - simpl in Es. injection Es as -> <-. exists s1, s2. repeat split; assumption.
Qed.

Lemma matches_cat_cons (r1 r2 : regex) (c : codeunit) (s : jsstring) :
  matches (Cat r1 r2) (c :: s) <->
  (exists s1 s2, s = s1 ++ s2 /\ matches r1 (c :: s1) /\ matches r2 s2) \/
  (matches r1 [] /\ matches r2 (c :: s)).
Proof.
  split.
  - intros M. apply matches_cat_inv in M. destruct M as (s1 & s2 & E & M1 & M2).
    destruct s1 as [| c' s1]; simpl in E.
    + right. subst s2. split; assumption.
    + injection E as -> ->. left. exists s1, s2. repeat split; assumption.
  - intros [(s1 & s2 & -> & M1 & M2) | [M1 M2]].
    + exact (matches_cat _ _ (c :: s1) s2 M1 M2).
    + exact (matches_cat _ _ [] (c :: s) M1 M2).
Qed.

Lemma deriv_matches (r : regex) (c : codeunit) (s : jsstring) :
  matches (deriv c r) s <-> matches r (c :: s).
Proof.
  revert s. induction r as [| | p | r1 IH1 r2 IH2 | r1 IH1 r2 IH2 | r IH]; intros s; simpl.
  - split; intros M; destruct (matches_empty_inv _ M).
  - split; intros M; [destruct (matches_empty_inv _ M)|].
    apply matches_eps_inv in M. discriminate M.
  - destruct (p c) eqn:P; split; intros M.
    + apply matches_eps_inv in M. subst s. constructor. exact P.
    + apply matches_class_inv in M. destruct M as (c' & E & _).
      injection E as _ ->. constructor.
    + destruct (matches_empty_inv _ M).
    + apply matches_class_inv in M. destruct M as (c' & E & P').
      injection E as <- _. congruence.
  - assert (Hcat : matches (Cat (deriv c r1) r2) s <->
                   exists s1 s2, s = s1 ++ s2 /\ matches r1 (c :: s1) /\ matches r2 s2).
    { split.
      - intros M. apply matches_cat_inv in M. destruct M as (s1 & s2 & E & M1 & M2).
        exists s1, s2. rewrite <- IH1. repeat split; assumption.
      - intros (s1 & s2 & -> & M1 & M2). apply matches_cat; [apply IH1|]; assumption. }
    rewrite matches_cat_cons. destruct (nullable r1) eqn:Nu.
    + apply nullable_matches in Nu. split.
      * intros M. apply matches_alt_inv in M.
        destruct M as [M | M]; [left; apply Hcat | right; split; [| apply IH2]];
          assumption.
      * intros [M | [_ M]]; [apply matches_alt_l, Hcat | apply matches_alt_r, IH2];
          assumption.
    + rewrite Hcat. split; [intros M; left; exact M|].
      intros [M | [M _]]; [exact M|].
      apply nullable_matches in M. congruence.
  - split; intros M; apply matches_alt_inv in M; destruct M as [M | M].
    + apply matches_alt_l, IH1, M.
    + apply matches_alt_r, IH2, M.
    + apply matches_alt_l, IH1, M.
    + apply matches_alt_r, IH2, M.
  - split.
    + intros M. apply matches_cat_inv in M. destruct M as (s1 & s2 & -> & M1 & M2).
      apply IH in M1. exact (matches_star_app _ (c :: s1) s2 M1 M2).
    + intros M. destruct (matches_star_cons _ _ _ M) as (s1 & s2 & -> & M1 & M2).
      apply matches_cat; [apply IH|]; assumption.
Qed.

Lemma test_matches (r : regex) (s : jsstring) : test r s = true <-> matches r s.
Proof.
  revert r. induction s as [| c s IH]; intros r; simpl.
  - apply nullable_matches.
  - rewrite IH. apply deriv_matches.
Qed.

Lemma matches_star_class (p : codeunit -> bool) (s : jsstring) :
  matches (Star (Class_ p)) s <-> forallb p s = true.
Proof.
  split.
  - intros M. remember (Star (Class_ p)) as r0 eqn:Er.
    induction M as [| | | | | r' | r' s1 s2 M1 _ M2 IH2]; try discriminate Er.
    + reflexivity.
    + injection Er as ->. apply matches_class_inv in M1.
      destruct M1 as (c & -> & Pc). simpl.
      rewrite (IH2 eq_refl), Pc. reflexivity.
  - induction s as [| c s IH]; simpl; intros F.
    + constructor.
    + apply andb_true_iff in F. destruct F as [Pc F].
      apply (matches_star_app _ [c] s); [constructor; exact Pc | exact (IH F)].
Qed.

Lemma matches_plus_class (p : codeunit -> bool) (s : jsstring) :
  matches (Plus (Class_ p)) s <-> s <> [] /\ forallb p s = true.
Proof.
  unfold Plus. split.
  - intros M. apply matches_cat_inv in M. destruct M as (s1 & s2 & -> & M1 & M2).
    apply matches_class_inv in M1. destruct M1 as (c & -> & Pc).
    apply matches_star_class in M2. simpl.
    split; [discriminate|]. rewrite M2, Pc. reflexivity.
  - intros [N F]. destruct s as [| c s]; [contradiction|]. simpl in F.
    apply andb_true_iff in F. destruct F as [Pc F].
    apply (matches_cat _ _ [c] s); [constructor; exact Pc | apply matches_star_class, F].
Qed.

Lemma matches_chr (a : ascii) (s : jsstring) :
  matches (chr a) s <-> s = [N_of_ascii a].
Proof.
  unfold chr. split.
  - intros M. apply matches_class_inv in M. destruct M as (c & -> & E).
    f_equal. symmetry. apply N.eqb_eq. exact E.
  - intros ->. constructor. apply N.eqb_refl.
Qed.

End RegexFacts.

Module EmailFacts.
Import Regex Properties RegexFacts RequestValidator.

(** The shape the spec's pattern describes. *)
Lemma emailRegex_shape (s : jsstring) :
  test emailRegex s = true <->
  exists local domain tld,
    s = local ++ [N_of_ascii "@"] ++ domain ++ [N_of_ascii "."] ++ tld /\
    (local <> [] /\ forallb not_space_at local = true) /\
    (domain <> [] /\ forallb not_space_at domain = true) /\
    (tld <> [] /\ forallb not_space_at tld = true).
Proof.
  rewrite test_matches. unfold emailRegex. split.
  - intros M.
    apply matches_cat_inv in M. destruct M as (local & s1 & -> & Ml & M).
    apply matches_cat_inv in M. destruct M as (at_ & s2 & -> & Ma & M).
    apply matches_cat_inv in M. destruct M as (domain & s3 & -> & Md & M).
    apply matches_cat_inv in M. destruct M as (dot & tld & -> & Mdot & Mt).
    apply matches_chr in Ma, Mdot. subst at_ dot.
    apply matches_plus_class in Ml, Md, Mt.
    exists local, domain, tld. repeat split; tauto.
  - intros (local & domain & tld & -> & Hl & Hd & Ht).
    apply matches_cat; [apply matches_plus_class, Hl|].
    apply matches_cat; [apply matches_chr; reflexivity|].
    apply matches_cat; [apply matches_plus_class, Hd|].
    apply matches_cat; [apply matches_chr; reflexivity | apply matches_plus_class, Ht].
Qed.

End EmailFacts.

(* ================================================================== *)
(** * Facts about session names and the counter *)
(* ================================================================== *)

Module NumeralFacts.
Import Properties.


Lemma lit_inj (a b : string) : lit a = lit b -> a = b.
Proof.
  revert b. induction a as [| x a IH]; destruct b as [| y b]; simpl;
    intros E; try reflexivity; try discriminate E.
  injection E as Exy Eab. apply IH in Eab. subst b.
  f_equal. rewrite <- (ascii_N_embedding x), <- (ascii_N_embedding y).
  rewrite Exy. reflexivity.
Qed.

Lemma uint_digits (d : Decimal.uint) :
  forallb is_digit (lit (NilEmpty.string_of_uint d)) = true.
Proof. induction d; simpl; try reflexivity; exact IHd. Qed.

Lemma uint_nonempty (d : Decimal.uint) :
  d <> Decimal.Nil -> lit (NilEmpty.string_of_uint d) <> [].
Proof. destruct d; intros N; try contradiction; discriminate. Qed.

Lemma render_numeral (z : Z) : numeral (render z).
Proof.
  unfold render. destruct z as [| p | p]; simpl.
  - apply numeral_unsigned; [discriminate | reflexivity].
  - pose proof (Unsigned.to_uint_nonnil p) as N.
    unfold NilZero.string_of_uint.
    destruct (Pos.to_uint p) eqn:E; try contradiction;
      (apply numeral_unsigned; [apply uint_nonempty; discriminate | apply uint_digits]).
  - pose proof (Unsigned.to_uint_nonnil p) as N.
    unfold NilZero.string_of_uint.
    destruct (Pos.to_uint p) eqn:E; try contradiction;
      (apply numeral_signed; [apply uint_nonempty; discriminate | apply uint_digits]).
Qed.

Lemma render_inj (a b : Z) : render a = render b -> a = b.
Proof.
  unfold render. intros E. apply lit_inj in E.
  assert (N : forall z, Z.to_int z <> Decimal.Pos Decimal.Nil /\
                        Z.to_int z <> Decimal.Neg Decimal.Nil).
  { intros [| p | p]; simpl; split; try discriminate;
      intros X; injection X as X; exact (Unsigned.to_uint_nonnil p X). }
  assert (I : NilZero.int_of_string (NilZero.string_of_int (Z.to_int a)) =
              NilZero.int_of_string (NilZero.string_of_int (Z.to_int b)))
    by (rewrite E; reflexivity).
  rewrite !NilZero.isi in I by apply N.
  injection I as I.
  rewrite <- (DecimalZ.of_to a), <- (DecimalZ.of_to b), I. reflexivity.
Qed.

(** Two digit runs that end at a hyphen in the same text are the same. *)
Lemma digits_split (d1 d2 x y : jsstring) :
  forallb is_digit d1 = true -> forallb is_digit d2 = true ->
  d1 ++ hyphen :: x = d2 ++ hyphen :: y -> d1 = d2 /\ x = y.
Proof.
  revert d2. induction d1 as [| a d1 IH]; intros [| b d2] D1 D2 E; simpl in *.
  - injection E as ->. split; reflexivity.
  - injection E as <- _. discriminate D2.
  - injection E as -> _. discriminate D1.
  - injection E as -> E. apply andb_true_iff in D1, D2.
    destruct (IH d2 (proj2 D1) (proj2 D2) E) as [-> ->]. split; reflexivity.
Qed.

Lemma numeral_split (a b x y : jsstring) :
  numeral a -> numeral b ->
  a ++ hyphen :: x = b ++ hyphen :: y -> a = b /\ x = y.
Proof.
  intros [da Na Da | da Na Da] [db Nb Db | db Nb Db] E.
  - apply digits_split; assumption.
  - destruct da as [| c da]; [contradiction|].
    simpl in E. injection E as -> _. discriminate Da.
  - destruct db as [| c db]; [contradiction|].
    simpl in E. injection E as <- _. discriminate Db.
  - simpl in E. injection E as E.
    destruct (digits_split _ _ _ _ Da Db E) as [-> ->]. split; reflexivity.
Qed.

End NumeralFacts.

Module SessionNameFacts.
Import FirebaseNotificationService Properties NumeralFacts.

Lemma Ok_inj {A} (a b : A) : Ok a = Ok b -> a = b.
Proof. intros E. injection E. trivial. Qed.

Lemma Some_eq_inj {A} (a b : A) : Some a = Some b -> a = b.
Proof. intros E. injection E. trivial. Qed.

Lemma app_name_inj (t1 c1 t2 c2 : Z) (s1 s2 : jsstring) :
  app_name t1 c1 s1 = app_name t2 c2 s2 -> t1 = t2 /\ c1 = c2 /\ s1 = s2.
Proof.
  unfold app_name. intros E. apply app_inv_head in E.
  change (lit "-") with [hyphen] in E. cbn [app] in E.
  destruct (numeral_split _ _ _ _ (render_numeral t1) (render_numeral t2) E) as [Et E'].
  destruct (numeral_split _ _ _ _ (render_numeral c1) (render_numeral c2) E') as [Ec Es].
  apply render_inj in Et, Ec. auto.
Qed.

Section Names.
Context `{Environment}.

Lemma _generateAppName_run (w : World) :
  _generateAppName w =
  (Ok (app_name (clock (ticks w)) (increment (appCounter w))
         (substring_from (random36 (draws w)) 7)),
   mkWorld (increment (appCounter w)) (S (ticks w)) (S (draws w)) (trace w)).
Proof. reflexivity. Qed.

(** Below 2^53 the increment adds one. *)
Lemma increment_exact (n : Z) : 0 <= n -> n + 1 <= 2 ^ 53 -> increment n = n + 1.
Proof.
  intros L U. unfold increment.
  replace (- 2 ^ 53 <=? n) with true
    by (symmetry; apply Z.leb_le; change (2 ^ 53) with 9007199254740992; lia).
  replace (n <? 2 ^ 53) with true by (symmetry; apply Z.ltb_lt; lia).
  reflexivity.
Qed.

Lemma generate_names_run (n : nat) (w : World) :
  0 <= appCounter w ->
  appCounter w + Z.of_nat n <= 2 ^ 53 ->
  exists names,
    generate_names n w =
      (Ok names, mkWorld (appCounter w + Z.of_nat n) (n + ticks w) (n + draws w) (trace w)) /\
    List.length names = n /\
    forall i, (i < n)%nat ->
      nth_error names i =
        Some (app_name (clock (i + ticks w)) (appCounter w + 1 + Z.of_nat i)
                (substring_from (random36 (i + draws w)) 7)).
Proof.
  revert w. induction n as [| n IH]; intros w L U.
  - exists []. cbn [generate_names]. unfold ret. destruct w; cbn.
    rewrite Z.add_0_r. repeat split. intros i Li. lia.
  - assert (I : increment (appCounter w) = appCounter w + 1)
      by (apply increment_exact; lia).
    destruct (IH (mkWorld (appCounter w + 1) (S (ticks w)) (S (draws w)) (trace w)))
      as (rest & R & Len & Nth); cbn [appCounter]; [lia | lia |].
    exists (app_name (clock (ticks w)) (appCounter w + 1)
              (substring_from (random36 (draws w)) 7) :: rest).
    split; [| split].
    + cbn [generate_names]. unfold bind at 1. rewrite _generateAppName_run, I.
      unfold bind at 1. rewrite R. cbn. unfold ret. f_equal. f_equal; lia.
    + simpl. rewrite Len. reflexivity.
    + intros [| i] Li.
      * cbn. rewrite Z.add_0_r. reflexivity.
      * cbn [nth_error]. rewrite Nth by lia. cbn [appCounter ticks draws].
        f_equal. f_equal; [f_equal; lia | lia | f_equal; f_equal; lia].
Qed.

End Names.
End SessionNameFacts.

Create HintDb counter.

Module CounterFacts.
Import FirebaseNotificationService Properties.
Local Open Scope monad_scope.

Section Algebra.
Context {S : Type} (proj : S -> World).

Lemma ca_ret {A} (a : A) : counter_after proj (ret a) 0%nat.
Proof. intros s. reflexivity. Qed.

Lemma ca_throw {A} (e : error) : counter_after proj (@throw S A e) 0%nat.
Proof. intros s. reflexivity. Qed.

Lemma ca_of_result {A} (r : result A) : counter_after proj (of_result r) 0%nat.
Proof. intros s. reflexivity. Qed.

Lemma ca_bind_0 {A B} (m : M S A) (k : A -> M S B) :
  counter_after proj m 0%nat -> (forall a, counter_after proj (k a) 0%nat) ->
  counter_after proj (bind m k) 0%nat.
Proof.
  intros Hm Hk s. unfold bind. specialize (Hm s).
  destruct (m s) as [[a | e] s']; cbn [fst snd] in *; [rewrite Hk; cbn [Nat.iter nat_rect]|];
    exact Hm.
Qed.

Lemma ca_bind_first {A B} (m : M S A) (k : A -> M S B) (j : nat) :
  counter_after proj m j -> (forall a, counter_after proj (k a) 0%nat) ->
  counter_after proj (bind m k) j.
Proof.
  intros Hm Hk s. unfold bind. specialize (Hm s).
  destruct (m s) as [[a | e] s']; cbn [fst snd] in *; [rewrite Hk; cbn [Nat.iter nat_rect]|];
    exact Hm.
Qed.

Lemma ca_try_catch {A} (body : M S A) (handler : error -> M S A) (j : nat) :
  counter_after proj body j -> (forall e, counter_after proj (handler e) 0%nat) ->
  counter_after proj (try_catch body handler) j.
Proof.
  intros Hb Hh s. unfold try_catch. specialize (Hb s).
  destruct (body s) as [[a | e] s']; cbn [fst snd] in *;
    [|rewrite Hh; cbn [Nat.iter nat_rect]]; exact Hb.
Qed.

Lemma ca_try_finally {A} (body : M S A) (fin : M S unit) (j : nat) :
  counter_after proj body j -> counter_after proj fin 0%nat ->
  counter_after proj (try_finally body fin) j.
Proof.
  intros Hb Hf s. unfold try_finally. specialize (Hb s).
  destruct (body s) as [r s']. specialize (Hf s').
  destruct (fin s') as [[u | e] s'']; cbn [fst snd Nat.iter nat_rect] in *;
    rewrite Hf; exact Hb.
Qed.

End Algebra.

Lemma ca_lift {L A} (m : M World A) (j : nat) :
  counter_after (fun w => w) m j -> counter_after (@snd L World) (lift m) j.
Proof.
  intros Hm [l w]. unfold lift. cbn. specialize (Hm w).
  destruct (m w) as [r w']. exact Hm.
Qed.

Lemma ca_read_local {L} : counter_after (@snd L World) read_local 0%nat.
Proof. intros s. reflexivity. Qed.

Lemma ca_assign_local {L} (l : L) : counter_after (@snd L World) (assign_local l) 0%nat.
Proof. intros s. reflexivity. Qed.

Lemma ca_with_local {L A} (init : L) (m : M (L * World) A) (j : nat) :
  counter_after (@snd L World) m j -> counter_after (fun w => w) (with_local init m) j.
Proof.
  intros Hm w. unfold with_local. specialize (Hm (init, w)).
  destruct (m (init, w)) as [r ls]. exact Hm.
Qed.

Section Service.
Context `{Environment}.

Lemma ca_emit (e : event) : counter_after (fun w => w) (emit e) 0%nat.
Proof. intros w. reflexivity. Qed.

Lemma ca_logger lvl msg meta : counter_after (fun w => w) (logger lvl msg meta) 0%nat.
Proof. apply ca_emit. Qed.

Lemma ca_Date_now : counter_after (fun w => w) Date_now 0%nat.
Proof. intros w. reflexivity. Qed.

Lemma ca_sdk_initializeApp sa n : counter_after (fun w => w) (sdk_initializeApp sa n) 0%nat.
Proof.
  intros w. unfold sdk_initializeApp.
  destruct (initializeApp_fails (trace w) sa n); reflexivity.
Qed.

Lemma ca_sdk_send app m : counter_after (fun w => w) (sdk_send app m) 0%nat.
Proof. intros w. reflexivity. Qed.

Lemma ca_sdk_deleteApp app : counter_after (fun w => w) (sdk_deleteApp app) 0%nat.
Proof.
  intros w. unfold sdk_deleteApp.
  destruct (deleteApp_fails (trace w) app); reflexivity.
Qed.

Lemma ca__generateAppName : counter_after (fun w => w) _generateAppName 1%nat.
Proof. intros w. reflexivity. Qed.

End Service.

#[export] Hint Resolve ca_ret ca_throw ca_of_result ca_read_local ca_assign_local
  ca_emit ca_logger ca_Date_now ca_sdk_initializeApp ca_sdk_send ca_sdk_deleteApp
  : counter.

Ltac counter_steps :=
  repeat first
    [ apply ca_bind_0; [| intros ?]
    | apply ca_lift
    | apply ca_try_catch; [| intros ?]
    | solve [auto with counter] ].

Section Methods.
Context `{Environment}.

Lemma ca__cleanupFirebaseApp app :
  counter_after (fun w => w) (_cleanupFirebaseApp app) 0%nat.
Proof. destruct app as [app |]; cbn [_cleanupFirebaseApp]; counter_steps. Qed.

Lemma ca__buildNotificationMessage token title body :
  counter_after (fun w => w) (_buildNotificationMessage token title body) 0%nat.
Proof. unfold _buildNotificationMessage. counter_steps. Qed.

Lemma ca__initializeFirebaseApp sa :
  counter_after (fun w => w) (_initializeFirebaseApp sa) 1%nat.
Proof.
  unfold _initializeFirebaseApp.
  apply ca_try_catch; [| intros e; counter_steps].
  apply ca_bind_first; [apply ca__generateAppName | intros n; counter_steps].
Qed.

Lemma ca_sendNotification sa token title body :
  counter_after (fun w => w) (sendNotification sa token title body) 1%nat.
Proof.
  unfold sendNotification. apply ca_with_local.
  intros [l w]. unfold bind at 1. cbn [lift Date_now snd fst].
  match goal with
  | |- appCounter (snd (snd (?m ?s))) = _ =>
      assert (X : counter_after (@snd (option App) World) m 1%nat)
  end.
  { apply ca_try_finally.
    - unfold sendNotification_dispatch, sendNotification_try, sendNotification_catch.
      apply ca_try_catch; [| intros e; counter_steps].
      apply ca_bind_first; [apply ca_lift, ca__initializeFirebaseApp |].
      intros app. pose proof ca__buildNotificationMessage. counter_steps.
    - pose proof ca__cleanupFirebaseApp. counter_steps. }
  rewrite X. reflexivity.
Qed.

End Methods.
End CounterFacts.

(* ================================================================== *)
(** * Facts about dispatch and teardown *)
(* ================================================================== *)

Module TeardownFacts.
Import FirebaseNotificationService Properties.
Local Open Scope monad_scope.

Section Runs.
Context `{Environment}.

Lemma _cleanupFirebaseApp_none (w : World) : _cleanupFirebaseApp None w = (Ok tt, w).
Proof. reflexivity. Qed.

Lemma _cleanupFirebaseApp_deleted (a : App) (w : World) :
  deleteApp_fails (trace w) a = None ->
  _cleanupFirebaseApp (Some a) w =
  (Ok tt, log_event w [DeleteApp a;
                       Log debug (lit "Firebase app cleaned up successfully") (appName_meta a)]).
Proof.
  intros D. cbn [_cleanupFirebaseApp]. unfold try_catch, bind, sdk_deleteApp.
  rewrite D. unfold logger, emit, modify, log_event. cbn [appCounter ticks draws trace].
  rewrite <- app_assoc. reflexivity.
Qed.

Lemma _cleanupFirebaseApp_failed (a : App) (e : error) (w : World) :
  deleteApp_fails (trace w) a = Some e ->
  _cleanupFirebaseApp (Some a) w =
  (Ok tt, log_event w [DeleteApp a;
                       Log warn (lit "Firebase app cleanup warning: " ++ message e)
                         (appName_meta a)]).
Proof.
  intros D. cbn [_cleanupFirebaseApp]. unfold try_catch, bind, sdk_deleteApp.
  rewrite D. unfold logger, emit, modify, log_event. cbn [appCounter ticks draws trace].
  rewrite <- app_assoc. reflexivity.
Qed.

Lemma _cleanupFirebaseApp_returns (app : option App) (w : World) :
  exists w', _cleanupFirebaseApp app w = (Ok tt, w').
Proof.
  destruct app as [a |]; [| eexists; reflexivity].
  destruct (deleteApp_fails (trace w) a) eqn:D.
  - eexists. apply _cleanupFirebaseApp_failed. exact D.
  - eexists. apply _cleanupFirebaseApp_deleted. exact D.
Qed.

Lemma sendNotification_unfold sa token title body (w : World) :
  sendNotification sa token title body w =
  let started := snd (Date_now w) in
  let dispatched :=
    sendNotification_dispatch (clock (ticks w)) sa token title body (None, started) in
  (fst dispatched,
   snd (_cleanupFirebaseApp (fst (snd dispatched)) (snd (snd dispatched)))).
Proof.
  unfold sendNotification, with_local. unfold bind at 1.
  cbn [lift Date_now snd fst]. unfold try_finally.
  cbv zeta.
  destruct (sendNotification_dispatch _ _ _ _ _ _) as [r [app w2]].
  unfold bind, read_local, lift. cbn [fst snd].
  destruct (_cleanupFirebaseApp_returns app w2) as (w3 & ->). reflexivity.
Qed.

End Runs.
End TeardownFacts.

Module DispatchFacts.
Import FirebaseNotificationService Properties TeardownFacts.
Local Open Scope monad_scope.

Section Runs.
Context `{Environment}.




End Runs.
End DispatchFacts.

Import FirebaseNotificationService Properties TeardownFacts DispatchFacts.


(* ================================================================== *)
(** * Facts about the codec *)
(* ================================================================== *)

Module CodecFacts.
Import CryptoManager.

Section Codec.
Context `{B : NodeBuiltins} {L : NodeBuiltinsLaws B}.

Lemma _createIV_length : List.length _createIV = 16%nat.
Proof. reflexivity. Qed.

Lemma _generateKeyHash_length (key : jsstring) :
  List.length (_generateKeyHash key) = 32%nat.
Proof. apply sha256_length. Qed.

Lemma encrypt_text (data : value) (key s : jsstring) :
  jsonString_of data = Some s ->
  encrypt data key =
  Ok (base64_encode (cipher_run (sha256 key) (repeat 0%N 16) (utf8_encode s))).
Proof.
  intros E. unfold encrypt. rewrite E.
  rewrite createCipheriv_fits
    by (apply _generateKeyHash_length || apply _createIV_length).
  reflexivity.
Qed.

Lemma decrypt_sealed (key s : jsstring) :
  isWellFormed s = true ->
  decrypt (base64_encode (cipher_run (sha256 key) (repeat 0%N 16) (utf8_encode s))) key =
  match JSON_parse s with
  | Ok v => Ok v
  | Throw error => Throw (Error (lit "Decryption failed: " ++ message error))
  end.
Proof.
  intros W. unfold decrypt.
  rewrite base64_decode_encode.
  rewrite createDecipheriv_fits
    by (apply _generateKeyHash_length || apply _createIV_length).
  cbn [or_throw and_then].
  change _createIV with (repeat 0%N 16). unfold _generateKeyHash.
  rewrite decipher_cipher by (apply sha256_length || reflexivity).
  cbn [and_then]. rewrite utf8_decode_encode by exact W. reflexivity.
Qed.

End Codec.

Lemma decrypt_error_shape `{NodeBuiltins} (encryptedData key : jsstring) (e : error) :
  decrypt encryptedData key = Throw e ->
  exists cause, e = Error (lit "Decryption failed: " ++ message cause).
Proof.
  unfold decrypt.
  destruct (and_then _ _) as [v | cause]; intros E; [discriminate E|].
  injection E as <-. exists cause. reflexivity.
Qed.

End CodecFacts.

Module SampleFacts.
Import CryptoManager Sample.

Lemma open_seal (k : N) (plain : bytes) :
  open_ k (List.map (N.add k) plain ++ [k]) = Ok plain.
Proof.
  induction plain as [| c plain IH].
  - simpl. rewrite N.eqb_refl. reflexivity.
  - cbn [List.map app]. cbn [open_].
    destruct (List.map (N.add k) plain ++ [k]) as [| x rest] eqn:R.
    + destruct (List.map (N.add k) plain); discriminate R.
    + replace (k <=? k + c)%N with true by (symmetry; apply N.leb_le; lia).
      rewrite IH. f_equal. f_equal. lia.
Qed.

Lemma fits_lengths (key iv : bytes) :
  List.length key = 32%nat -> List.length iv = 16%nat -> fits key iv = None.
Proof. unfold fits. intros -> ->. reflexivity. Qed.

Lemma digest_length (key : jsstring) : List.length (digest key) = 32%nat.
Proof.
  unfold digest. rewrite firstn_length_le; [reflexivity|].
  rewrite length_app, repeat_length. lia.
Qed.

Lemma stringify_well_formed (v : value) (s : jsstring) :
  stringify v = Some s -> isWellFormed s = true.
Proof.
  unfold stringify. destruct (write v) as [t |]; [| discriminate].
  destruct (isWellFormed t) eqn:W; [| discriminate].
  intros E. injection E as <-. exact W.
Qed.

Lemma builtins_laws : NodeBuiltinsLaws builtins.
Proof.
  constructor.
  - exact digest_length.
  - exact fits_lengths.
  - exact fits_lengths.
  - intros key iv plain _ _. apply open_seal.
  - reflexivity.
  - reflexivity.
  - exact stringify_well_formed.
Qed.

End SampleFacts.

Import CryptoManager CodecFacts.

(** C1. For every key [k] and every JSON-serializable value [c] that
    is not a string (so every serializable object), [encrypt c k] returns a
    blob and [decrypt] of that blob under [k] returns [c]. *)
Theorem decrypt_encrypt_roundtrip `{B : NodeBuiltins} {L : NodeBuiltinsLaws B}
    (c : value) (k : jsstring) :
  typeof c <> TString ->
  JSON_serializable c ->
  exists blob, encrypt c k = Ok blob /\ decrypt blob k = Ok c.
Proof.
  intros T (s & St & Pa).
  assert (J : jsonString_of c = Some s) by (destruct c; try exact St; contradiction T; reflexivity).
  eexists. split; [apply (encrypt_text c k s J)|].
  rewrite decrypt_sealed by (eapply JSON_stringify_well_formed; exact St).
  rewrite Pa. reflexivity.
Qed.

Lemma decrypt_encrypt_roundtrip_witness :
  typeof Sample.credential <> TString /\
  @JSON_serializable Sample.builtins Sample.credential /\
  exists blob, @encrypt Sample.builtins Sample.credential Sample.secret = Ok blob /\
               @decrypt Sample.builtins blob Sample.secret = Ok Sample.credential.
Proof.
  assert (T : typeof Sample.credential <> TString) by discriminate.
  assert (S : @JSON_serializable Sample.builtins Sample.credential)
    by (eexists; split; [vm_compute; reflexivity | vm_compute; reflexivity]).
  split; [exact T|]. split; [exact S|].
  exact (@decrypt_encrypt_roundtrip Sample.builtins SampleFacts.builtins_laws
           Sample.credential Sample.secret T S).
Defined.

(** C8. The IV is sixteen zero bytes for every call, two invocations of
    [encrypt] on the same value and key give the same result, and under the
    contracts of the built-ins that result is the Base64 text of the cipher
    run under the SHA-256 digest of the key and the zero IV. *)
Theorem encrypt_is_deterministic `{B : NodeBuiltins} (c : value) (k : jsstring) :
  _createIV = [0; 0; 0; 0; 0; 0; 0; 0; 0; 0; 0; 0; 0; 0; 0; 0]%N /\
  (forall first second, first = encrypt c k -> second = encrypt c k -> first = second) /\
  (NodeBuiltinsLaws B ->
   forall s, jsonString_of c = Some s ->
     encrypt c k =
     Ok (base64_encode (cipher_run (sha256 k) _createIV (utf8_encode s)))).
Proof.
  split; [reflexivity|]. split.
  - intros first second -> ->. reflexivity.
  - intros L s E. apply (encrypt_text c k s E).
Qed.

(* ================================================================== *)
(** * Runs on concrete inputs *)
(* ================================================================== *)

Module Runs.
Import RequestValidator CryptoManager FirebaseNotificationService.

(** The credential of the specification's scenario is accepted. *)
Example scenario_credential_is_valid :
  validateServiceAccount Sample.credential = Ok (mkValidation true []).
Proof. vm_compute. reflexivity. Qed.

(** A truthy [private_key] that is neither string nor array has no
    [includes] method: the validator throws instead of answering. *)
Example number_key_throws :
  validateServiceAccount Sample.number_key_account =
  Throw (TypeError (lit "serviceAccount.private_key.includes is not a function")).
Proof. vm_compute. reflexivity. Qed.

(** A string is encrypted as it is, without [JSON.stringify], so a
    string that is no JSON text does not come back from [decrypt]. *)
Example plain_string_does_not_round_trip :
  match @encrypt Sample.builtins (VString (lit "hello")) Sample.secret with
  | Ok blob =>
      @decrypt Sample.builtins blob Sample.secret =
      Throw (Error (lit "Decryption failed: Unexpected token in JSON"))
  | Throw _ => False
  end.
Proof. vm_compute. reflexivity. Qed.

(** The first name a fresh service generates. *)
Example first_app_name :
  fst (@_generateAppName (Sample.environment (Ok []) Sample.typical_draw) constructor) =
  Ok (lit "alwari-relay-1700000000000-1-82mvyr").
Proof. vm_compute. reflexivity. Qed.

End Runs.

(* ================================================================== *)
(** * The validators, the session names and the decrypt phase *)
(* ================================================================== *)

Import RequestValidator Properties ValidatorFacts.



Import RequestValidator Properties ValidatorFacts ServiceAccountFacts.

(** C5. On the empty object the validator answers [isValid = false] and
    lists the four missing fields, one error each, in the order of the
    required-field list. *)
Theorem validateServiceAccount_empty_object :
  validateServiceAccount (VObject []) =
  Ok (mkValidation false
        [lit "Missing required service account field: project_id";
         lit "Missing required service account field: private_key";
         lit "Missing required service account field: client_email";
         lit "Missing required service account field: type"]).
Proof. vm_compute. reflexivity. Qed.

(** C4, as amended. [validateServiceAccount] answers [isValid = true]
    exactly when the value is a non-null object, the four required fields are
    truthy, [type] is the string ["service_account"], the call
    [private_key.includes('BEGIN PRIVATE KEY')] is true (a string with that
    substring, or an array with that string as an element) and the string
    conversion of [client_email] matches the e-mail pattern.  The validator
    reads nothing but its argument. *)
Theorem validateServiceAccount_accepts_iff (v : value) :
  (exists r, validateServiceAccount v = Ok r /\ isValid r = true) <->
  is_object v = true /\
  (forall field, In field serviceAccountFields -> truthy (get v field) = true) /\
  get v (lit "type") = VString (lit "service_account") /\
  has_header (get v (lit "private_key")) /\
  exists text,
    ToString (get v (lit "client_email")) = Ok text /\
    Regex.test emailRegex text = true.
Proof.
  destruct (is_object v) eqn:O.
  - rewrite (accepts_iff v O), is_literal_eq, includes_true, _isValidEmail_true.
    unfold serviceAccountFields. split.
    + intros ((T1 & T2 & T3 & T4) & L & I & Em).
      repeat split; try assumption.
      intros field [<- | [<- | [<- | [<- | []]]]]; assumption.
    + intros (_ & T & L & I & Em).
      repeat split; try assumption; apply T; simpl; tauto.
  - split.
    + intros (r & E & V). unfold validateServiceAccount, is_object in *.
      destruct (truthy v); simpl in O; [rewrite O in E|];
        simpl in E; injection E as <-; discriminate V.
    + intros (F & _). discriminate F.
Qed.

(** C4, as stated, fails: a credential whose [private_key] is an array
    holding the header marker is accepted, although its [private_key] is no
    string containing the marker. *)
Lemma validateServiceAccount_accepts_array_key :
  ~ ((exists r, validateServiceAccount Sample.array_key_account = Ok r /\ isValid r = true) <->
     spec_valid_service_account Sample.array_key_account).
Proof.
  intros [Hcode _].
  assert (A : exists r, validateServiceAccount Sample.array_key_account = Ok r /\ isValid r = true).
  { exists (mkValidation true []). split; vm_compute; reflexivity. }
  destruct (Hcode A) as (_ & _ & _ & (s & E & _) & _).
  vm_compute in E. discriminate E.
Qed.

Import FirebaseNotificationService Properties.
Import TeardownFacts SessionNameFacts CounterFacts NumeralFacts.




(** C6, as amended. While the counter stays within the integers that a
    Number holds exactly, [n] calls of [_generateAppName] return [n] names
    that are pairwise distinct; the [i]-th is
    [alwari-relay-<timestamp>-<counter>-<suffix>] with the clock reading of
    that call, the counter after its increment and the random rendering from
    index 7 on, whatever its length.  Names generated in any two states of the
    service with different counters differ as well. *)
Theorem generated_names_are_distinct `{Environment} (n : nat) (w : World) :
  0 <= appCounter w ->
  appCounter w + Z.of_nat n <= 2 ^ 53 ->
  (exists names w',
     generate_names n w = (Ok names, w') /\
     List.length names = n /\
     NoDup names /\
     forall i, (i < n)%nat ->
       nth_error names i =
         Some (app_name (clock (i + ticks w)) (appCounter w + 1 + Z.of_nat i)
                 (substring_from (random36 (i + draws w)) 7))) /\
  (forall w1 w2,
     0 <= appCounter w1 < 2 ^ 53 -> 0 <= appCounter w2 < 2 ^ 53 ->
     appCounter w1 <> appCounter w2 ->
     fst (_generateAppName w1) <> fst (_generateAppName w2)).
Proof.
  intros L U. split.
  - destruct (generate_names_run n w L U) as (names & R & Len & Nth).
    exists names. eexists. split; [exact R|]. split; [exact Len|]. split; [| exact Nth].
    apply NoDup_nth_error. intros i j Li E. rewrite Len in Li.
    rewrite (Nth i Li) in E.
    assert (Lj : (j < n)%nat).
    { rewrite <- Len. apply nth_error_Some. rewrite <- E. discriminate. }
    rewrite (Nth j Lj) in E. apply Some_eq_inj, app_name_inj in E. lia.
  - intros w1 w2 B1 B2 D E. rewrite !_generateAppName_run in E. cbn [fst] in E.
    rewrite !increment_exact in E by lia.
    apply Ok_inj, app_name_inj in E. lia.
Qed.

Lemma generated_names_are_distinct_witness :
  0 <= appCounter constructor /\
  appCounter constructor + Z.of_nat 3 <= 2 ^ 53 /\
  exists names w',
    @generate_names (Sample.environment (Ok []) Sample.typical_draw) 3 constructor =
      (Ok names, w') /\
    List.length names = 3%nat /\ NoDup names.
Proof.
  assert (L : 0 <= appCounter constructor) by (vm_compute; discriminate).
  assert (U : appCounter constructor + Z.of_nat 3 <= 2 ^ 53)
    by (vm_compute; discriminate).
  split; [exact L|]. split; [exact U|].
  destruct (proj1 (@generated_names_are_distinct
                     (Sample.environment (Ok []) Sample.typical_draw) 3 constructor L U))
    as (names & w' & R & Len & D & _).
  exists names, w'. split; [exact R|]. split; [exact Len | exact D].
Defined.

(** C10, as amended. While the counter stays within the integers that a
    Number holds exactly, [_generateAppName] adds exactly one to [appCounter]; cleanup
    leaves it alone and a whole [sendNotification] adds exactly one, so it
    never decreases.  Two names generated one after the other embed the
    counters [c + 1] and [c + 2] and differ, and so do any two names with the
    same timestamp and suffix but different counters. *)
Theorem appCounter_steps_by_one `{Environment} (w : World) :
  0 <= appCounter w ->
  appCounter w + 2 <= 2 ^ 53 ->
  appCounter (snd (_generateAppName w)) = appCounter w + 1 /\
  (forall app, appCounter (snd (_cleanupFirebaseApp app w)) = appCounter w) /\
  (forall serviceAccount token title body,
     appCounter (snd (sendNotification serviceAccount token title body w)) =
       appCounter w + 1) /\
  (let first := _generateAppName w in
   let second := _generateAppName (snd first) in
   (exists now1 suffix1, fst first = Ok (app_name now1 (appCounter w + 1) suffix1)) /\
   (exists now2 suffix2, fst second = Ok (app_name now2 (appCounter w + 2) suffix2)) /\
   fst first <> fst second) /\
  (forall now suffix counter1 counter2,
     0 <= counter1 -> counter1 < counter2 -> counter2 <= 2 ^ 53 ->
     app_name now counter1 suffix <> app_name now counter2 suffix).
Proof.
  intros L U.
  assert (I1 : increment (appCounter w) = appCounter w + 1)
    by (apply increment_exact; lia).
  assert (I2 : increment (appCounter w + 1) = appCounter w + 2)
    by (rewrite increment_exact by lia; lia).
  split; [rewrite _generateAppName_run; exact I1|].
  split; [intros app; exact (ca__cleanupFirebaseApp app w)|].
  split.
  { intros sa token title body.
    rewrite (ca_sendNotification sa token title body w). exact I1. }
  split.
  - cbv zeta. rewrite !_generateAppName_run. cbn [fst snd appCounter ticks draws].
    rewrite I1, I2.
    split; [eexists _, _; reflexivity|].
    split; [eexists _, _; reflexivity|].
    intros E. apply Ok_inj, app_name_inj in E. lia.
  - intros now suffix c1 c2 _ Lt _ E. apply app_name_inj in E. lia.
Qed.

Lemma appCounter_steps_by_one_witness :
  0 <= appCounter constructor /\
  appCounter constructor + 2 <= 2 ^ 53 /\
  appCounter
    (snd (@_generateAppName (Sample.environment (Ok []) Sample.typical_draw)
            constructor)) = 1.
Proof.
  assert (L : 0 <= appCounter constructor) by (vm_compute; discriminate).
  assert (U : appCounter constructor + 2 <= 2 ^ 53) by (vm_compute; discriminate).
  split; [exact L|]. split; [exact U|].
  exact (proj1 (@appCounter_steps_by_one
                  (Sample.environment (Ok []) Sample.typical_draw) constructor L U)).
Defined.

(** C10, as stated, fails: once the counter has reached 2^53, [++] no
    longer changes it, and two names generated one after the other at the
    same clock reading and with the same random suffix are equal. *)
Lemma counter_stalls_at_two_to_the_53 :
  let first := @_generateAppName Inputs.frozen Inputs.worn_out in
  let second := @_generateAppName Inputs.frozen (snd first) in
  appCounter (snd first) = appCounter Inputs.worn_out /\
  fst first = Ok (lit "alwari-relay-1700000000000-9007199254740992-82mvyr") /\
  fst second = fst first.
Proof. cbv zeta. split; [| split]; vm_compute; reflexivity. Qed.

Import RequestHandler.

(** C7, as amended. [decrypt] fails exactly when one of its steps does:
    the creation of the decipher object, the decryption itself or
    [JSON.parse] (decoding Base64 and UTF-8 never throws).  Whichever step it
    is, [decrypt] throws a plain [Error] whose message is
    "Decryption failed: " followed by the message of that step's error, so
    the error itself tells the steps apart.  The decrypt phase of the request
    handler logs that message and sends the one fixed 400 response; any two
    failing inputs get the same responses. *)
Theorem decrypt_failure_is_reported_uniformly `{NodeBuiltins}
    (firebaseConfig secretKey : jsstring) (w : World) :
  let keyHash := _generateKeyHash secretKey in
  let encryptedBuffer := base64_decode firebaseConfig in
  let reported cause :=
    decrypt firebaseConfig secretKey =
      Throw (Error (lit "Decryption failed: " ++ message cause)) in
  (forall cause, createDecipheriv keyHash _createIV = Some cause -> reported cause) /\
  (forall cause,
     createDecipheriv keyHash _createIV = None ->
     decipher_run keyHash _createIV encryptedBuffer = Throw cause ->
     reported cause) /\
  (forall plain cause,
     createDecipheriv keyHash _createIV = None ->
     decipher_run keyHash _createIV encryptedBuffer = Ok plain ->
     JSON_parse (utf8_decode plain) = Throw cause ->
     reported cause) /\
  forall e, decrypt firebaseConfig secretKey = Throw e ->
    (exists cause,
       e = Error (lit "Decryption failed: " ++ message cause) /\
       (createDecipheriv keyHash _createIV = Some cause \/
        decipher_run keyHash _createIV encryptedBuffer = Throw cause \/
        exists plain,
          decipher_run keyHash _createIV encryptedBuffer = Ok plain /\
          JSON_parse (utf8_decode plain) = Throw cause)) /\
    decrypt_phase firebaseConfig secretKey w =
      (Ok None,
       log_event w
         [Log error_ (lit "Decryption failed")
            (VObject [(lit "error", VString (message e))]);
          decrypt_failure_response]) /\
    responses (trace (snd (decrypt_phase firebaseConfig secretKey w))) =
      responses (trace w) ++ [decrypt_failure_response] /\
    (forall firebaseConfig' secretKey' e',
       decrypt firebaseConfig' secretKey' = Throw e' ->
       responses (trace (snd (decrypt_phase firebaseConfig' secretKey' w))) =
       responses (trace (snd (decrypt_phase firebaseConfig secretKey w)))).
Proof.
  cbv zeta.
  assert (R : forall fc k e0, decrypt fc k = Throw e0 ->
            decrypt_phase fc k w =
            (Ok None,
             log_event w
               [Log error_ (lit "Decryption failed")
                  (VObject [(lit "error", VString (message e0))]);
                decrypt_failure_response])).
  { intros fc k e0 D0. unfold decrypt_phase, try_catch, bind, of_result. rewrite D0.
    unfold logger, emit, modify, ret, log_event. cbn [appCounter ticks draws trace].
    rewrite <- app_assoc. reflexivity. }
  assert (P : forall fc k e0, decrypt fc k = Throw e0 ->
            responses (trace (snd (decrypt_phase fc k w))) =
            responses (trace w) ++ [decrypt_failure_response]).
  { intros fc k e0 D0. rewrite (R fc k e0 D0). unfold log_event, responses.
    cbn [snd trace]. rewrite filter_app. reflexivity. }
  split; [| split; [| split]].
  - intros cause C. unfold decrypt. rewrite C. reflexivity.
  - intros cause C D. unfold decrypt. rewrite C. cbn [or_throw and_then].
    rewrite D. reflexivity.
  - intros plain cause C D J. unfold decrypt. rewrite C. cbn [or_throw and_then].
    rewrite D. cbn [and_then]. rewrite J. reflexivity.
  - intros e D. split; [| split; [exact (R _ _ _ D) | split; [exact (P _ _ _ D)|]]].
    + unfold decrypt in D.
      destruct (createDecipheriv (_generateKeyHash secretKey) _createIV)
        as [cause |] eqn:C; cbn [or_throw and_then] in D.
      * injection D as <-. exists cause. split; [reflexivity | left; reflexivity].
      * destruct (decipher_run (_generateKeyHash secretKey) _createIV
                    (base64_decode firebaseConfig)) as [plain | cause] eqn:Dr;
          cbn [and_then] in D.
        -- destruct (JSON_parse (utf8_decode plain)) as [v | cause] eqn:J;
             [discriminate D|].
           injection D as <-. exists cause. split; [reflexivity|].
           right. right. exists plain. split; [reflexivity | exact J].
        -- injection D as <-. exists cause. split; [reflexivity|].
           right. left. reflexivity.
    + intros fc' k' e' D'. rewrite (P _ _ _ D'), (P _ _ _ D). reflexivity.
Qed.

Lemma decrypt_failure_is_reported_uniformly_witness :
  @createDecipheriv Sample.builtins (@_generateKeyHash Sample.builtins Sample.secret)
    (@_createIV) = None /\
  @decipher_run Sample.builtins (@_generateKeyHash Sample.builtins Sample.secret)
    (@_createIV) (@base64_decode Sample.builtins []) =
    Throw (Error (lit "wrong final block length")) /\
  @decrypt Sample.builtins [] Sample.secret =
    Throw (Error (lit "Decryption failed: wrong final block length")) /\
  responses
    (trace (snd (@decrypt_phase Sample.builtins [] Sample.secret constructor))) =
  responses (trace constructor) ++ [decrypt_failure_response].
Proof.
  assert (C : @createDecipheriv Sample.builtins
                (@_generateKeyHash Sample.builtins Sample.secret) (@_createIV) = None)
    by (vm_compute; reflexivity).
  assert (R : @decipher_run Sample.builtins
                (@_generateKeyHash Sample.builtins Sample.secret) (@_createIV)
                (@base64_decode Sample.builtins []) =
              Throw (Error (lit "wrong final block length")))
    by (vm_compute; reflexivity).
  pose proof (@decrypt_failure_is_reported_uniformly Sample.builtins
                [] Sample.secret constructor) as T.
  cbv zeta in T. destruct T as (_ & Step & _ & Failed).
  pose proof (Step _ C R) as D. cbn [message Error] in D.
  split; [exact C|]. split; [exact R|]. split; [exact D|].
  exact (proj1 (proj2 (proj2 (Failed _ D)))).
Defined.

(** C7, as stated, fails: an empty blob fails in the decipher and a
    string that was encrypted as it is fails in [JSON.parse]; the two errors
    that [decrypt] throws carry different messages, each naming its cause. *)
Lemma decrypt_discloses_the_failing_step :
  @decrypt Sample.builtins [] Sample.secret =
    Throw (Error (lit "Decryption failed: wrong final block length")) /\
  match @encrypt Sample.builtins (VString (lit "hello")) Sample.secret with
  | Ok blob =>
      @decrypt Sample.builtins blob Sample.secret =
        Throw (Error (lit "Decryption failed: Unexpected token in JSON")) /\
      @decrypt Sample.builtins blob Sample.secret <>
        @decrypt Sample.builtins [] Sample.secret
  | Throw _ => False
  end.
Proof.
  split; [vm_compute; reflexivity|].
  vm_compute. split; [reflexivity | discriminate].
Qed.



(** C6, as stated, fails: when [Math.random()] returns one half the
    rendering is ["0.i"] and the name ends with the hyphen after the counter,
    with no suffix at all. *)
Lemma half_draw_leaves_no_suffix :
  let generated :=
    fst (@_generateAppName (Sample.environment (Ok []) Sample.one_half) constructor) in
  generated = Ok (lit "alwari-relay-1700000000000-1-") /\
  ~ (exists now counter suffix,
       generated = Ok (app_name now counter suffix) /\ (5 <= List.length suffix)%nat).
Proof.
  cbv zeta. split; [vm_compute; reflexivity|].
  intros (now & counter & suffix & E & L).
  rewrite _generateAppName_run in E. cbn [fst] in E.
  apply Ok_inj, app_name_inj in E. destruct E as (_ & _ & <-).
  vm_compute in L. lia.
Qed.

(* ================================================================== *)
(** * The sanitizer, the format check, the logger, the body parser and
      the library entry *)
(* ================================================================== *)

Import JS Process.

(* ================================================================== *)
(** * The sanitizer *)
(* ================================================================== *)

Module SanitizerFacts.
Import Regex RequestValidator Properties ValidatorFacts Sanitizer.

Lemma trimStart_split (s : jsstring) :
  exists lead, s = lead ++ trimStart s /\ forallb is_space lead = true.
Proof.
  induction s as [| c s (lead & E & F)]; simpl.
  - exists []. split; reflexivity.
  - destruct (is_space c) eqn:Sp.
    + exists (c :: lead). simpl. rewrite Sp, F. split; [f_equal; exact E | reflexivity].
    + exists []. split; reflexivity.
Qed.

Lemma trimStart_head (s : jsstring) (c : codeunit) (rest : jsstring) :
  trimStart s = c :: rest -> is_space c = false.
Proof.
  induction s as [| d s IH]; simpl; [discriminate|].
  destruct (is_space d) eqn:Sp; [exact IH|].
  intros E. injection E as <- _. exact Sp.
Qed.

Lemma trimStart_fixed (s : jsstring) :
  match s with [] => True | c :: _ => is_space c = false end -> trimStart s = s.
Proof. destruct s as [| c s]; simpl; [reflexivity|]. intros ->. reflexivity. Qed.

Lemma trimStart_idempotent (s : jsstring) : trimStart (trimStart s) = trimStart s.
Proof.
  apply trimStart_fixed. destruct (trimStart s) eqn:E; [exact I|].
  exact (trimStart_head _ _ _ E).
Qed.

Lemma trimStart_all_space (s : jsstring) :
  trimStart s = [] <-> forallb is_space s = true.
Proof.
  induction s as [| c s IH]; simpl; [tauto|].
  destruct (is_space c); simpl; [exact IH|]. split; discriminate.
Qed.

(** Stripping at the end keeps a first code unit that is no white space. *)
Lemma trimStart_app_keep (a b : jsstring) (c : codeunit) :
  is_space c = false -> trimStart (a ++ c :: b) = trimStart a ++ c :: b.
Proof.
  intros Sp. induction a as [| d a IH]; simpl.
  - rewrite Sp. reflexivity.
  - destruct (is_space d); [exact IH | reflexivity].
Qed.

Lemma trimEnd_split (s : jsstring) :
  exists trail, s = trimEnd s ++ trail /\ forallb is_space trail = true.
Proof.
  unfold trimEnd. destruct (trimStart_split (rev s)) as (lead & E & F).
  exists (rev lead). split.
  - rewrite <- rev_app_distr, <- E, rev_involutive. reflexivity.
  - rewrite forallb_forall in *. intros x In'. apply F, in_rev. exact In'.
Qed.

Lemma trimEnd_last (s : jsstring) (c : codeunit) (front : jsstring) :
  trimEnd s = front ++ [c] -> is_space c = false.
Proof.
  unfold trimEnd. intros E.
  apply (f_equal (@rev codeunit)) in E. rewrite rev_involutive, rev_app_distr in E.
  simpl in E. exact (trimStart_head _ _ _ E).
Qed.

Lemma trimEnd_idempotent (s : jsstring) : trimEnd (trimEnd s) = trimEnd s.
Proof. unfold trimEnd. rewrite rev_involutive, trimStart_idempotent. reflexivity. Qed.

(** Stripping at the end leaves the first code unit alone when it is no
    white space. *)
Lemma trimEnd_keeps_head (c : codeunit) (rest : jsstring) :
  is_space c = false -> exists rest', trimEnd (c :: rest) = c :: rest'.
Proof.
  intros Sp. unfold trimEnd. simpl.
  rewrite trimStart_app_keep by exact Sp.
  rewrite rev_app_distr. simpl. eexists. reflexivity.
Qed.

Lemma trim_head (s : jsstring) (c : codeunit) (rest : jsstring) :
  trim s = c :: rest -> is_space c = false.
Proof.
  unfold trim. intros E. destruct (trimStart s) as [| d t] eqn:T.
  - discriminate E.
  - pose proof (trimStart_head _ _ _ T) as Sp.
    destruct (trimEnd_keeps_head d t Sp) as (rest' & E').
    rewrite E' in E. injection E as <- _. exact Sp.
Qed.

Lemma trim_last (s : jsstring) (c : codeunit) (front : jsstring) :
  trim s = front ++ [c] -> is_space c = false.
Proof. unfold trim. apply trimEnd_last. Qed.

Lemma trim_idempotent (s : jsstring) : trim (trim s) = trim s.
Proof.
  unfold trim at 1. destruct (trim s) as [| c rest] eqn:E; [reflexivity|].
  rewrite trimStart_fixed by exact (trim_head _ _ _ E).
  rewrite <- E. unfold trim. apply trimEnd_idempotent.
Qed.

Lemma trim_split (s : jsstring) :
  exists lead trail,
    s = lead ++ trim s ++ trail /\
    forallb is_space lead = true /\ forallb is_space trail = true.
Proof.
  destruct (trimStart_split s) as (lead & E & F).
  destruct (trimEnd_split (trimStart s)) as (trail & E' & F').
  exists lead, trail. unfold trim. rewrite <- E'. auto.
Qed.

Lemma trim_length (s : jsstring) : (List.length (trim s) <= List.length s)%nat.
Proof.
  destruct (trim_split s) as (lead & trail & E & _).
  rewrite E at 2. rewrite !length_app. lia.
Qed.

Lemma trim_all_space (s : jsstring) :
  forallb is_space s = true -> trim s = [].
Proof.
  intros F. unfold trim. apply trimStart_all_space in F. rewrite F. reflexivity.
Qed.

End SanitizerFacts.

Import Regex RequestValidator Properties ValidatorFacts Sanitizer SanitizerFacts.

(** X1. [_sanitizeString] gives the empty string for anything but a
    string, and for a string the text between its leading and trailing white
    space: the result neither starts nor ends with white space, nothing but
    white space was removed, and sanitizing again changes nothing. *)
Theorem _sanitizeString_strips_white_space (str : value) :
  let t := _sanitizeString str in
  (forall c rest, t = c :: rest -> is_space c = false) /\
  (forall front c, t = front ++ [c] -> is_space c = false) /\
  _sanitizeString (VString t) = t /\
  (forall s, str = VString s ->
     exists lead trail,
       s = lead ++ t ++ trail /\
       forallb is_space lead = true /\ forallb is_space trail = true) /\
  (typeof str <> TString -> t = []).
Proof.
  cbv zeta.
  assert (Other : _sanitizeString str = [] ->
    (forall c rest, _sanitizeString str = c :: rest -> is_space c = false) /\
    (forall front c, _sanitizeString str = front ++ [c] -> is_space c = false) /\
    _sanitizeString (VString (_sanitizeString str)) = _sanitizeString str).
  { intros ->. split; [discriminate|]. split; [| reflexivity].
    intros front c E. destruct front; discriminate E. }
  destruct str as [| | b | z | s | l | fields];
    try (destruct (Other eq_refl) as (A & B & C);
         split; [exact A|]; split; [exact B|]; split; [exact C|];
         split; [discriminate | reflexivity]).
  cbn [_sanitizeString].
  split; [apply trim_head|]. split; [intros front c; apply trim_last|].
  split; [apply trim_idempotent|]. split.
  - intros s0 E. injection E as <-. apply trim_split.
  - intros T. contradiction T. reflexivity.
Qed.

Lemma sanitizePayload_object (fields : list (jsstring * value)) :
  sanitizePayload (VObject fields) =
  Ok (mkSanitized (_sanitizeString (lookup (lit "firebaseConfig") fields))
        (_sanitizeString (lookup (lit "token") fields))
        (_sanitizeString (lookup (lit "title") fields))
        (_sanitizeString (lookup (lit "body") fields))).
Proof. reflexivity. Qed.

Lemma sanitizePayload_valid_fields `{NumericStrings} (payload : value)
    (validation : ValidationResult) :
  validatePayload payload = Ok validation ->
  isValid validation = true ->
  exists firebaseConfig token title body,
    (get payload (lit "firebaseConfig") = VString firebaseConfig /\
     get payload (lit "token") = VString token /\
     get payload (lit "title") = VString title /\
     get payload (lit "body") = VString body) /\
    ((List.length title <= 100)%nat /\ (List.length body <= 1000)%nat) /\
    sanitizePayload payload =
      Ok (mkSanitized (trim firebaseConfig) (trim token) (trim title) (trim body)).
Proof.
  intros E V.
  destruct (proj1 (validatePayload_accepts payload) (ex_intro _ validation (conj E V)))
    as (fc & tk & ti & bo & E1 & E2 & E3 & E4 & B1 & B2 & B3 & B4).
  exists fc, tk, ti, bo. split; [auto|]. split; [lia|].
  destruct (get_string_is_object _ _ _ E1) as (fields & ->).
  rewrite sanitizePayload_object. cbn [get] in *. rewrite E1, E2, E3, E4. reflexivity.
Qed.

(** X2. A payload that [validatePayload] accepts is sanitized without
    an exception into its four strings trimmed; none of them gets longer, so
    the sanitized title and body still have at most 100 and 1000 code units. *)
Theorem sanitizePayload_of_valid_payload `{NumericStrings} (payload : value)
    (validation : ValidationResult) :
  validatePayload payload = Ok validation ->
  isValid validation = true ->
  exists firebaseConfig token title body,
    get payload (lit "firebaseConfig") = VString firebaseConfig /\
    get payload (lit "token") = VString token /\
    get payload (lit "title") = VString title /\
    get payload (lit "body") = VString body /\
    sanitizePayload payload =
      Ok (mkSanitized (trim firebaseConfig) (trim token) (trim title) (trim body)) /\
    (List.length (trim firebaseConfig) <= List.length firebaseConfig)%nat /\
    (List.length (trim token) <= List.length token)%nat /\
    (List.length (trim title) <= 100)%nat /\
    (List.length (trim body) <= 1000)%nat.
Proof.
  intros E V. destruct (sanitizePayload_valid_fields payload validation E V)
    as (fc & tk & ti & bo & (E1 & E2 & E3 & E4) & (B3 & B4) & S).
  exists fc, tk, ti, bo. repeat split; try assumption.
  - apply trim_length.
  - apply trim_length.
  - pose proof (trim_length ti). lia.
  - pose proof (trim_length bo). lia.
Qed.

Lemma sanitizePayload_of_valid_payload_witness :
  @validatePayload Inputs.no_numbers Inputs.blank_token_payload =
    Ok (mkValidation true []) /\
  exists firebaseConfig token title body,
    get Inputs.blank_token_payload (lit "firebaseConfig") = VString firebaseConfig /\
    get Inputs.blank_token_payload (lit "token") = VString token /\
    get Inputs.blank_token_payload (lit "title") = VString title /\
    get Inputs.blank_token_payload (lit "body") = VString body /\
    sanitizePayload Inputs.blank_token_payload =
      Ok (mkSanitized (trim firebaseConfig) (trim token) (trim title) (trim body)) /\
    (List.length (trim firebaseConfig) <= List.length firebaseConfig)%nat /\
    (List.length (trim token) <= List.length token)%nat /\
    (List.length (trim title) <= 100)%nat /\
    (List.length (trim body) <= 1000)%nat.
Proof.
  assert (E : @validatePayload Inputs.no_numbers Inputs.blank_token_payload =
              Ok (mkValidation true []))
    by (vm_compute; reflexivity).
  split; [exact E|].
  exact (@sanitizePayload_of_valid_payload Inputs.no_numbers Inputs.blank_token_payload
           _ E eq_refl).
Defined.

(** X3. Validation comes before sanitizing and is not repeated: a payload
    whose token consists of white space only (ten code units or more) is
    accepted, its sanitized token is empty, and the sanitized payload itself
    would not pass [validatePayload]. *)
Theorem blank_token_passes_validation `{NumericStrings} (payload : value)
    (validation : ValidationResult) (blank : jsstring) :
  validatePayload payload = Ok validation ->
  isValid validation = true ->
  get payload (lit "token") = VString blank ->
  forallb is_space blank = true ->
  exists sanitized rejected,
    sanitizePayload payload = Ok sanitized /\
    token sanitized = [] /\
    validatePayload (to_object sanitized) = Ok rejected /\
    isValid rejected = false.
Proof.
  intros E V T Sp.
  destruct (sanitizePayload_valid_fields payload validation E V)
    as (fc & tk & ti & bo & (_ & E2 & _ & _) & _ & S).
  rewrite T in E2. injection E2 as <-.
  destruct (validatePayload_of_strings
              (to_object (mkSanitized (trim fc) (trim blank) (trim ti) (trim bo))))
    as (rejected & R).
  { intros field [<- | [<- | [<- | [<- | []]]]]; right; reflexivity. }
  eexists. exists rejected. split; [exact S|]. cbn [token].
  split; [exact (trim_all_space _ Sp)|]. split; [exact R|].
  apply not_true_is_false. intros V'.
  destruct (proj1 (validatePayload_accepts _) (ex_intro _ rejected (conj R V')))
    as (fc' & tk' & ti' & bo' & _ & E2' & _ & _ & _ & B2 & _).
  rewrite (trim_all_space _ Sp) in E2'.
  vm_compute in E2'. injection E2' as <-. simpl in B2. lia.
Qed.

Lemma blank_token_passes_validation_witness :
  @validatePayload Inputs.no_numbers Inputs.blank_token_payload =
    Ok (mkValidation true []) /\
  get Inputs.blank_token_payload (lit "token") = VString Inputs.blank_token /\
  forallb is_space Inputs.blank_token = true /\
  exists sanitized rejected,
    sanitizePayload Inputs.blank_token_payload = Ok sanitized /\
    token sanitized = [] /\
    @validatePayload Inputs.no_numbers (to_object sanitized) = Ok rejected /\
    isValid rejected = false.
Proof.
  assert (E : @validatePayload Inputs.no_numbers Inputs.blank_token_payload =
              Ok (mkValidation true []))
    by (vm_compute; reflexivity).
  assert (T : get Inputs.blank_token_payload (lit "token") = VString Inputs.blank_token)
    by (vm_compute; reflexivity).
  assert (Sp : forallb is_space Inputs.blank_token = true) by (vm_compute; reflexivity).
  split; [exact E|]. split; [exact T|]. split; [exact Sp|].
  exact (@blank_token_passes_validation Inputs.no_numbers Inputs.blank_token_payload
           _ Inputs.blank_token E eq_refl T Sp).
Defined.

(* ================================================================== *)
(** * The format check, the e-mail test and the logger *)
(* ================================================================== *)

Module FormatFacts.
Import Regex Properties RegexFacts EncryptedFormat.

Lemma matches_at_most_twice_chr (a : ascii) (s : jsstring) :
  matches (at_most_twice (chr a)) s <->
  s = [] \/ s = [N_of_ascii a] \/ s = [N_of_ascii a; N_of_ascii a].
Proof.
  unfold at_most_twice. split.
  - intros M. apply matches_alt_inv in M. destruct M as [M | M].
    + left. exact (matches_eps_inv _ M).
    + right. apply matches_cat_inv in M. destruct M as (s1 & s2 & -> & M1 & M2).
      apply matches_chr in M1. subst s1.
      apply matches_alt_inv in M2. destruct M2 as [M2 | M2].
      * left. rewrite (matches_eps_inv _ M2). reflexivity.
      * right. apply matches_chr in M2. subst s2. reflexivity.
  - intros [-> | [-> | ->]].
    + apply matches_alt_l. constructor.
    + apply matches_alt_r.
      apply (matches_cat _ _ [N_of_ascii a] []); [apply matches_chr; reflexivity|].
      apply matches_alt_l. constructor.
    + apply matches_alt_r.
      apply (matches_cat _ _ [N_of_ascii a] [N_of_ascii a]);
        [apply matches_chr; reflexivity|].
      apply matches_alt_r, matches_chr. reflexivity.
Qed.

End FormatFacts.

Import Regex Properties RegexFacts EncryptedFormat FormatFacts.

(** X4. [isValidEncryptedFormat] answers [true] exactly for a non-empty
    string made of characters of the Base64 alphabet followed by at most two
    equals signs; it checks neither the length of the text nor where the
    padding belongs, and it answers [false] for everything that is not a
    string. *)
Theorem isValidEncryptedFormat_shape (encryptedData : value) :
  isValidEncryptedFormat encryptedData = true <->
  exists text padding,
    encryptedData = VString (text ++ padding) /\
    text ++ padding <> [] /\
    forallb is_base64_char text = true /\
    (padding = [] \/ padding = lit "=" \/ padding = lit "==").
Proof.
  destruct encryptedData as [| | b | z | s | l | fields]; simpl;
    try (split; [discriminate | intros (t & p & E & _); discriminate E]).
  rewrite andb_true_iff, test_matches. unfold base64Regex. split.
  - intros [M L].
    apply matches_cat_inv in M. destruct M as (t & p & -> & Mt & Mp).
    apply matches_star_class in Mt. apply matches_at_most_twice_chr in Mp.
    exists t, p. split; [reflexivity|]. split; [| split; assumption].
    intros Z0. rewrite Z0 in L. discriminate L.
  - intros (t & p & E & N & F & P). injection E as ->. split.
    + apply matches_cat; [apply matches_star_class, F|].
      apply matches_at_most_twice_chr. exact P.
    + destruct (t ++ p); [contradiction | reflexivity].
Qed.

Module EmailValueFacts.
Import Regex Properties RegexFacts EmailFacts NumeralFacts RequestValidator.

Lemma render_has_no_at (z : Z) : ~ In (N_of_ascii "@") (render z).
Proof.
  intros I.
  assert (D : forall ds, forallb is_digit ds = true -> ~ In (N_of_ascii "@") ds).
  { intros ds F J. rewrite forallb_forall in F. specialize (F _ J). discriminate F. }
  destruct (render_numeral z) as [ds _ F | ds _ F].
  - exact (D ds F I).
  - destruct I as [E | I]; [discriminate E | exact (D ds F I)].
Qed.

Lemma email_has_at (s : jsstring) :
  test emailRegex s = true -> In (N_of_ascii "@") s.
Proof.
  intros T. apply emailRegex_shape in T.
  destruct T as (local & domain & tld & -> & _).
  apply in_or_app. right. left. reflexivity.
Qed.

End EmailValueFacts.

Import Regex Properties RegexFacts EmailFacts EmailValueFacts RequestValidator.

(** X5. [_isValidEmail] returns [true] exactly when the string
    conversion of its argument is a local part, an at sign, a domain, a dot
    and a last part, the three parts non-empty and free of white space and at
    signs (the domain and the last part may hold further dots).  It throws
    exactly when that conversion throws.  It therefore returns [false] for
    [undefined], [null], booleans, numbers and objects without an own
    [toString] property, and throws a [TypeError] for an object with one. *)
Theorem _isValidEmail_shape (email : value) :
  (_isValidEmail email = Ok true <->
   exists local domain tld,
     ToString email = Ok (local ++ lit "@" ++ domain ++ lit "." ++ tld) /\
     (local <> [] /\ forallb not_space_at local = true) /\
     (domain <> [] /\ forallb not_space_at domain = true) /\
     (tld <> [] /\ forallb not_space_at tld = true)) /\
  (forall e, _isValidEmail email = Throw e <-> ToString email = Throw e) /\
  (match email with
   | VUndefined | VNull | VBool _ | VNumber _ => _isValidEmail email = Ok false
   | VObject fields =>
       _isValidEmail email =
         if has_own (lit "toString") fields
         then Throw (TypeError (lit "Cannot convert object to primitive value"))
         else Ok false
   | VString _ | VArray _ => True
   end).
Proof.
  split; [| split].
  - rewrite ServiceAccountFacts._isValidEmail_true. split.
    + intros (text & E & T). apply emailRegex_shape in T.
      destruct T as (local & domain & tld & -> & P).
      exists local, domain, tld. split; [exact E | exact P].
    + intros (local & domain & tld & E & P). eexists. split; [exact E|].
      apply emailRegex_shape. exists local, domain, tld. split; [reflexivity | exact P].
  - intros e. unfold _isValidEmail.
    destruct (ToString email) as [text | e0]; cbn [and_then]; split; intros E;
      try discriminate E; injection E as <-; reflexivity.
  - destruct email as [| | [|] | z | s | l | fields]; try exact I; try reflexivity.
    + unfold _isValidEmail. cbn [ToString and_then]. f_equal.
      apply not_true_is_false. intros T. apply email_has_at in T.
      exact (render_has_no_at z T).
    + unfold _isValidEmail. cbn [ToString].
      destruct (has_own (lit "toString") fields); reflexivity.
Qed.

Module LoggerFacts.
Import Logger.

Lemma levels_cases (name : jsstring) (n : Z) :
  levels name = Some n ->
  (name = lit "error" /\ n = 0) \/ (name = lit "warn" /\ n = 1) \/
  (name = lit "info" /\ n = 2) \/ (name = lit "debug" /\ n = 3).
Proof.
  unfold levels.
  destruct (str_eqb name (lit "error")) eqn:E0;
    [apply ServiceAccountFacts.str_eqb_eq in E0; intros [= <-]; auto|].
  destruct (str_eqb name (lit "warn")) eqn:E1;
    [apply ServiceAccountFacts.str_eqb_eq in E1; intros [= <-]; auto|].
  destruct (str_eqb name (lit "info")) eqn:E2;
    [apply ServiceAccountFacts.str_eqb_eq in E2; intros [= <-]; auto 6|].
  destruct (str_eqb name (lit "debug")) eqn:E3;
    [apply ServiceAccountFacts.str_eqb_eq in E3; intros [= <-]; auto 6|].
  discriminate.
Qed.

Lemma levels_range (name : jsstring) (n : Z) : levels name = Some n -> 0 <= n <= 3.
Proof. intros E. apply levels_cases in E. lia. Qed.

Lemma setLevel_keeps_known (current level : jsstring) :
  hasOwnLevel current = true -> hasOwnLevel (setLevel current level) = true.
Proof.
  intros K. unfold setLevel. destruct (hasOwnLevel level) eqn:E; assumption.
Qed.

Lemma setLevel_all_known (names : list jsstring) (current : jsstring) :
  hasOwnLevel current = true -> hasOwnLevel (fold_left setLevel names current) = true.
Proof.
  revert current. induction names as [| n names IH]; intros current K; simpl.
  - exact K.
  - apply IH, setLevel_keeps_known, K.
Qed.

End LoggerFacts.

Import Logger LoggerFacts.

(** X6. Whatever names [setLevel] is called with, in whatever order, the
    level of the exported logger stays one of the four known names (an unknown
    name is ignored), and so [logger.error] always writes to the console. *)
Theorem logger_never_hides_errors (names : list jsstring) :
  let level := fold_left setLevel names default_logger in
  hasOwnLevel level = true /\
  writes level error_ = true /\
  (forall name, hasOwnLevel name = false -> setLevel level name = level).
Proof.
  cbv zeta.
  assert (K : hasOwnLevel (fold_left setLevel names default_logger) = true)
    by (apply setLevel_all_known; reflexivity).
  split; [exact K|]. split.
  - unfold writes, _shouldLog, threshold. unfold hasOwnLevel in K.
    destruct (levels (fold_left setLevel names default_logger)) as [n |] eqn:E;
      [| discriminate K].
    apply levels_range in E. change (levels (lit "error")) with (Some 0).
    apply Z.leb_le. lia.
  - intros name U. unfold setLevel. rewrite U. reflexivity.
Qed.

(** X7. Verbosity is ordered: a method that writes at one known level
    writes at every known level that is at least as verbose; at level [debug]
    every method writes, at level [error] only [logger.error] does, and
    [logger.success] writes exactly when [logger.info] does. *)
Theorem logger_levels_are_ordered (level level' : jsstring) (n n' : Z)
    (method : Process.level) :
  levels level = Some n -> levels level' = Some n' -> n <= n' ->
  (writes level method = true -> writes level' method = true) /\
  writes (lit "debug") method = true /\
  (writes (lit "error") method = true <-> method = error_) /\
  writes level success = writes level info.
Proof.
  intros L L' Le. split; [| split; [| split]].
  - unfold writes, _shouldLog. rewrite L, L'.
    destruct (levels (threshold method)) as [m |]; [| discriminate].
    rewrite !Z.leb_le. lia.
  - destruct method; reflexivity.
  - destruct method; split; intros E; try reflexivity; try discriminate E.
  - reflexivity.
Qed.

Lemma logger_levels_are_ordered_witness :
  levels (lit "warn") = Some 1 /\ levels (lit "info") = Some 2 /\ 1 <= 2 /\
  (writes (lit "warn") warn = true -> writes (lit "info") warn = true).
Proof.
  assert (A : levels (lit "warn") = Some 1) by reflexivity.
  assert (B : levels (lit "info") = Some 2) by reflexivity.
  assert (C : 1 <= 2) by lia.
  split; [exact A|]. split; [exact B|]. split; [exact C|].
  exact (proj1 (logger_levels_are_ordered (lit "warn") (lit "info") 1 2 warn A B C)).
Defined.

(* ================================================================== *)
(** * The other paths of sendNotification *)
(* ================================================================== *)

Module SendFacts.
Import FirebaseNotificationService Properties TeardownFacts DispatchFacts Counting.
Local Open Scope monad_scope.

Lemma sends_app (a b : list event) : sends (a ++ b) = (sends a + sends b)%nat.
Proof. unfold sends. rewrite filter_app, length_app. reflexivity. Qed.

Lemma initializations_app (a b : list event) :
  initializations (a ++ b) = (initializations a + initializations b)%nat.
Proof. unfold initializations. rewrite filter_app, length_app. reflexivity. Qed.

Section Runs.
Context `{Environment}.

(** What [_cleanupFirebaseApp] adds to the trace. *)
Lemma _cleanupFirebaseApp_events (app : option App) (w : World) :
  exists events,
    _cleanupFirebaseApp app w = (Ok tt, log_event w events) /\
    match app with
    | None => events = []
    | Some a => exists line, events = [DeleteApp a; line] /\ is_Log line = true
    end.
Proof.
  destruct app as [a |].
  - destruct (deleteApp_fails (trace w) a) eqn:D.
    + eexists. split; [apply (_cleanupFirebaseApp_failed _ _ _ D)|].
      eexists. split; reflexivity.
    + eexists. split; [apply (_cleanupFirebaseApp_deleted _ _ D)|].
      eexists. split; reflexivity.
  - exists []. split; [| reflexivity].
    unfold log_event. rewrite app_nil_r. destruct w. reflexivity.
Qed.

(** What the dispatch adds to the trace, in every case. *)
Lemma dispatch_events sa token title body (w : World) (startTime : Z) :
  exists outcome app events w',
    sendNotification_dispatch startTime sa token title body (None, w) =
      (outcome, (app, w')) /\
    trace w' = trace w ++ events /\
    initializations events = 1%nat /\
    teardowns events = 0%nat /\
    (sends events <= 1)%nat /\
    (sends events = 1%nat -> app <> None).
Proof.
  unfold sendNotification_dispatch, sendNotification_try, sendNotification_catch,
    _initializeFirebaseApp, _buildNotificationMessage, _generateAppName.
  unfold try_catch, bind, lift, of_result, sdk_initializeApp, sdk_send, logger, emit,
    modify, gets, ret, throw, assign_local, Date_now, Math_random_toString36.
  cbn [fst snd appCounter ticks draws trace].
  destruct (initializeApp_fails _ _ _) as [e |];
    cbn [fst snd appCounter ticks draws trace].
  - eexists _, _, _, _. split; [reflexivity|]. cbn [trace].
    split; [rewrite <- !app_assoc; cbn [app]; reflexivity|].
    repeat split; try reflexivity; try (cbn; lia); try (intros _; discriminate).
  - destruct (read_prop sa (lit "project_id")) as [pid | e];
      cbn [fst snd appCounter ticks draws trace].
    + destruct (send_outcome _ _ _) as [id | e];
        cbn [fst snd appCounter ticks draws trace].
      * eexists _, _, _, _. split; [reflexivity|]. cbn [trace].
        split; [rewrite <- !app_assoc; cbn [app]; reflexivity|].
        repeat split; try reflexivity; try (cbn; lia); try (intros _; discriminate).
      * eexists _, _, _, _. split; [reflexivity|]. cbn [trace].
        split; [rewrite <- !app_assoc; cbn [app]; reflexivity|].
        repeat split; try reflexivity; try (cbn; lia); try (intros _; discriminate).
    + eexists _, _, _, _. split; [reflexivity|]. cbn [trace].
      split; [rewrite <- !app_assoc; cbn [app]; reflexivity|].
      repeat split; try reflexivity; try (cbn; lia); try (intros _; discriminate).
Qed.

End Runs.
End SendFacts.

Import FirebaseNotificationService Properties TeardownFacts DispatchFacts Counting SendFacts.


(** X9. When the SDK refuses to initialize the app, [sendNotification]
    throws "Firebase messaging error: Failed to initialize Firebase app: "
    followed by the SDK's message; nothing is sent and, no app having been
    created, nothing is deleted; the counter has been incremented all the
    same. *)
Theorem sendNotification_when_initialization_fails `{Environment}
    (serviceAccount : value) (token title body : jsstring) (w : World) (e : error) :
  initializeApp_fails (trace w) serviceAccount (next_app_name w) = Some e ->
  let run := sendNotification serviceAccount token title body w in
  fst run =
    Throw (Error (lit "Firebase messaging error: Failed to initialize Firebase app: "
                    ++ message e)) /\
  appCounter (snd run) = increment (appCounter w) /\
  exists events,
    trace (snd run) = trace w ++ InitializeApp serviceAccount (next_app_name w) :: events /\
    sends events = 0%nat /\ teardowns events = 0%nat /\ initializations events = 0%nat.
Proof.
  intros F. cbv zeta. rewrite sendNotification_unfold. cbv zeta.
  unfold sendNotification_dispatch, sendNotification_try, sendNotification_catch,
    _initializeFirebaseApp, _buildNotificationMessage, _generateAppName.
  unfold try_catch, bind, lift, of_result, sdk_initializeApp, sdk_send, logger, emit,
    modify, gets, ret, throw, assign_local, Date_now, Math_random_toString36.
  cbn [fst snd appCounter ticks draws trace].
  unfold next_app_name in F. rewrite F.
  cbn [fst snd appCounter ticks draws trace _cleanupFirebaseApp ret message].
  split.
  - reflexivity.
  - split; [reflexivity|]. eexists.
    split; [rewrite <- !app_assoc; cbn [app]; reflexivity|].
    repeat split.
Qed.

Lemma sendNotification_when_initialization_fails_witness :
  let run :=
    @sendNotification Inputs.refusing_environment Sample.credential Sample.fcm_token
      (lit "Hi") (lit "Test") constructor in
  @initializeApp_fails Inputs.refusing_environment (trace constructor) Sample.credential
    (@next_app_name Inputs.refusing_environment constructor) =
    Some (Error (lit "Invalid PEM formatted message.")) /\
  fst run =
    Throw (Error (lit "Firebase messaging error: Failed to initialize Firebase app: "
                    ++ lit "Invalid PEM formatted message.")).
Proof.
  cbv zeta. split; [reflexivity|].
  exact (proj1 (@sendNotification_when_initialization_fails Inputs.refusing_environment
    Sample.credential Sample.fcm_token (lit "Hi") (lit "Test") constructor
    (Error (lit "Invalid PEM formatted message.")) eq_refl)).
Defined.



(* ================================================================== *)
(** * The library entry *)
(* ================================================================== *)

Module LibraryFacts.
Import RequestValidator CryptoManager Properties Counting TeardownFacts SendFacts.
Import FirebaseNotificationHandler.
Local Open Scope monad_scope.

Section Runs.
Context `{Environment}.

Lemma service_sendNotification_trace sa token title body (w : World) :
  exists events,
    trace (snd (FirebaseNotificationService.sendNotification sa token title body w)) =
      trace w ++ events.
Proof.
  rewrite sendNotification_unfold. cbv zeta.
  destruct (dispatch_events sa token title body (snd (Date_now w)) (clock (ticks w)))
    as (outcome & app & events & w' & D & T & _).
  rewrite D. cbn [fst snd].
  destruct (_cleanupFirebaseApp_events app w') as (cl & C & _).
  rewrite C. cbn [snd log_event trace]. rewrite T. cbn [Date_now snd trace].
  exists (events ++ cl). rewrite app_assoc. reflexivity.
Qed.

End Runs.

Section Library.
Context `{Environment} `{NodeBuiltins} `{NumericStrings}.

(** The parameters are strings, so their validation returns. *)
Lemma validatePayload_payload_of (fc token title body : jsstring) :
  exists validation, validatePayload (payload_of fc token title body) = Ok validation.
Proof.
  apply ValidatorFacts.validatePayload_of_strings.
  intros field [<- | [<- | [<- | [<- | []]]]]; right; reflexivity.
Qed.

(** The four ways a call of the library entry can go. *)
Lemma sendNotification_cases (fc key token title body : jsstring) (w : World) :
  exists validation,
  validatePayload (payload_of fc token title body) = Ok validation /\
  ((isValid validation = false /\
   sendNotification fc key token title body w =
     (Throw (Error (lit "Validation failed: "
                      ++ join (lit ", ") (errors validation))),
      log_event w [failure_line
                     (Error (lit "Validation failed: "
                               ++ join (lit ", ") (errors validation)))])) \/
  (isValid validation = true /\
   exists e, decrypt fc key = Throw e /\
     sendNotification fc key token title body w =
       (Throw e, log_event w [failure_line e])) \/
  (isValid validation = true /\
   exists sa, decrypt fc key = Ok sa /\
     ((exists e, validateServiceAccount sa = Throw e /\
         sendNotification fc key token title body w =
           (Throw e, log_event w [failure_line e])) \/
      (exists v, validateServiceAccount sa = Ok v /\ isValid v = false /\
         sendNotification fc key token title body w =
           (Throw (Error (lit "Invalid service account: "
                            ++ join (lit ", ") (errors v))),
            log_event w [failure_line
                           (Error (lit "Invalid service account: "
                                     ++ join (lit ", ") (errors v)))])) \/
      (exists v, validateServiceAccount sa = Ok v /\ isValid v = true /\
         sendNotification fc key token title body w =
           match FirebaseNotificationService.sendNotification sa token title body w with
           | (Ok r, w') => (Ok r, w')
           | (Throw e, w') => (Throw e, log_event w' [failure_line e])
           end)))).
Proof.
  destruct (validatePayload_payload_of fc token title body) as (validation & P).
  exists validation. split; [exact P|].
  unfold sendNotification, try_catch, bind, of_result, emit, modify, throw, ret.
  rewrite P.
  destruct (isValid validation) eqn:V;
    cbn [negb]; [right | left; split; [reflexivity|]; reflexivity].
  destruct (decrypt fc key) as [sa | e] eqn:D;
    [right | left; split; [reflexivity|]; exists e; split; reflexivity].
  split; [reflexivity|]. exists sa. split; [reflexivity|].
  destruct (validateServiceAccount sa) as [v | e] eqn:S;
    [right | left; exists e; split; reflexivity].
  destruct (isValid v) eqn:Vs; cbn [negb]; [right | left].
  - exists v. split; [reflexivity|]. split; [exact Vs|].
    destruct (FirebaseNotificationService.sendNotification sa token title body w)
      as [[r | e] w']; reflexivity.
  - exists v. split; [reflexivity|]. split; [exact Vs | reflexivity].
Qed.

End Library.
End LibraryFacts.

Import RequestValidator CryptoManager Properties Counting CodecFacts.
Import FirebaseNotificationHandler LibraryFacts.

(** X11. The library entry reaches the Firebase SDK only after its three
    checks: an app is initialized only if the payload passed
    [validatePayload], the configuration was decrypted and the decrypted
    service account passed [validateServiceAccount]. *)
Theorem library_reaches_the_sdk_only_after_its_checks
    `{Environment} `{NodeBuiltins} `{NumericStrings}
    (encryptedServiceAccount secretKey token title body : jsstring) (w : World) :
  exists events,
    trace (snd (sendNotification encryptedServiceAccount secretKey token title body w)) =
      trace w ++ events /\
    (initializations events <> 0%nat \/ sends events <> 0%nat ->
     (exists validation,
        validatePayload (payload_of encryptedServiceAccount token title body) =
          Ok validation /\
        isValid validation = true) /\
     exists serviceAccount v,
       decrypt encryptedServiceAccount secretKey = Ok serviceAccount /\
       validateServiceAccount serviceAccount = Ok v /\ isValid v = true).
Proof.
  assert (Quiet : forall e : error,
            initializations [failure_line e] <> 0%nat \/ sends [failure_line e] <> 0%nat ->
            False) by (intros e [X | X]; apply X; reflexivity).
  destruct (sendNotification_cases encryptedServiceAccount secretKey token title body w)
    as (validation & P & [(V & R) | [(V & e & D & R) | (V & sa & D & Cases)]]).
  - rewrite R. eexists. split; [reflexivity|]. intros X. destruct (Quiet _ X).
  - rewrite R. eexists. split; [reflexivity|]. intros X. destruct (Quiet _ X).
  - destruct Cases as [(e & S & R) | [(v & S & Vs & R) | (v & S & Vs & R)]].
    + rewrite R. eexists. split; [reflexivity|]. intros X. destruct (Quiet _ X).
    + rewrite R. eexists. split; [reflexivity|]. intros X. destruct (Quiet _ X).
    + rewrite R.
      destruct (service_sendNotification_trace sa token title body w) as (events & T).
      destruct (FirebaseNotificationService.sendNotification sa token title body w)
        as [[r | e] w']; cbn [snd log_event trace] in *; rewrite T.
      * exists events. split; [reflexivity|]. intros _.
        split; [exists validation; auto|]. exists sa, v. auto.
      * exists (events ++ [failure_line e]). rewrite app_assoc.
        split; [reflexivity|]. intros _.
        split; [exists validation; auto|]. exists sa, v. auto.
Qed.

(** X12. No failure leaves the library entry unlogged: whenever it
    throws an error, the last thing it did was to log that error's message
    under "Send notification failed". *)
Theorem library_logs_the_error_it_throws
    `{Environment} `{NodeBuiltins} `{NumericStrings}
    (encryptedServiceAccount secretKey token title body : jsstring) (w : World)
    (e : error) :
  fst (sendNotification encryptedServiceAccount secretKey token title body w) = Throw e ->
  exists events,
    trace (snd (sendNotification encryptedServiceAccount secretKey token title body w)) =
      trace w ++ events ++ [failure_line e].
Proof.
  destruct (sendNotification_cases encryptedServiceAccount secretKey token title body w)
    as (validation & P & [(V & R) | [(V & e0 & D & R) | (V & sa & D & Cases)]]).
  - rewrite R. cbn [fst snd]. intros E. injection E as <-. exists []. reflexivity.
  - rewrite R. cbn [fst snd]. intros E. injection E as <-. exists []. reflexivity.
  - destruct Cases as [(e0 & S & R) | [(v & S & Vs & R) | (v & S & Vs & R)]].
    + rewrite R. cbn [fst snd]. intros E. injection E as <-. exists []. reflexivity.
    + rewrite R. cbn [fst snd]. intros E. injection E as <-. exists []. reflexivity.
    + rewrite R.
      destruct (service_sendNotification_trace sa token title body w) as (events & T).
      destruct (FirebaseNotificationService.sendNotification sa token title body w)
        as [[r | e0] w']; cbn [fst snd log_event trace] in *.
      * discriminate.
      * intros E. injection E as <-. exists events. rewrite T, app_assoc. reflexivity.
Qed.

(** X13. On the library path a failed decryption reaches the caller as
    it is: the entry throws the very error of [decrypt], whose message is
    "Decryption failed: " followed by the cause, and it has touched nothing
    but the log. *)
Theorem library_passes_the_decryption_error_on
    `{Environment} `{NodeBuiltins} `{NumericStrings}
    (encryptedServiceAccount secretKey token title body : jsstring) (w : World)
    (validation : ValidationResult) (e : error) :
  validatePayload (payload_of encryptedServiceAccount token title body) = Ok validation ->
  isValid validation = true ->
  decrypt encryptedServiceAccount secretKey = Throw e ->
  sendNotification encryptedServiceAccount secretKey token title body w =
    (Throw e, log_event w [failure_line e]) /\
  exists cause, message e = lit "Decryption failed: " ++ message cause.
Proof.
  intros P V D. split.
  - destruct (sendNotification_cases encryptedServiceAccount secretKey token title body w)
      as (validation' & P' & [(V' & R) | [(_ & e0 & D' & R) | (_ & sa & D' & _)]]).
    + rewrite P in P'. injection P' as <-. rewrite V in V'. discriminate V'.
    + rewrite D in D'. injection D' as <-. exact R.
    + rewrite D in D'. discriminate D'.
  - destruct (decrypt_error_shape _ _ _ D) as (cause & ->). exists cause. reflexivity.
Qed.

Lemma library_passes_the_decryption_error_on_witness :
  let unreadable := Error (lit "Decryption failed: bad decrypt") in
  @validatePayload Inputs.no_numbers
    (payload_of Inputs.fifty Sample.fcm_token (lit "Hi") (lit "Test")) =
    Ok (mkValidation true []) /\
  @decrypt Sample.builtins Inputs.fifty Sample.secret = Throw unreadable /\
  @sendNotification Inputs.refusing_environment Sample.builtins Inputs.no_numbers
    Inputs.fifty Sample.secret Sample.fcm_token (lit "Hi") (lit "Test") constructor =
    (Throw unreadable, log_event constructor [failure_line unreadable]).
Proof.
  cbv zeta.
  assert (P : @validatePayload Inputs.no_numbers
                (payload_of Inputs.fifty Sample.fcm_token (lit "Hi") (lit "Test")) =
              Ok (mkValidation true []))
    by (vm_compute; reflexivity).
  assert (D : @decrypt Sample.builtins Inputs.fifty Sample.secret =
              Throw (Error (lit "Decryption failed: bad decrypt")))
    by (vm_compute; reflexivity).
  split; [exact P|]. split; [exact D|].
  exact (proj1 (@library_passes_the_decryption_error_on Inputs.refusing_environment
    Sample.builtins Inputs.no_numbers Inputs.fifty Sample.secret Sample.fcm_token
    (lit "Hi") (lit "Test") constructor _ _ P eq_refl D)).
Defined.

Lemma library_logs_the_error_it_throws_witness :
  let unreadable := Error (lit "Decryption failed: bad decrypt") in
  fst (@sendNotification Inputs.refusing_environment Sample.builtins Inputs.no_numbers
         Inputs.fifty Sample.secret Sample.fcm_token (lit "Hi") (lit "Test") constructor) =
    Throw unreadable /\
  exists events,
    trace (snd (@sendNotification Inputs.refusing_environment Sample.builtins
                  Inputs.no_numbers Inputs.fifty Sample.secret Sample.fcm_token
                  (lit "Hi") (lit "Test") constructor)) =
      trace constructor ++ events ++ [failure_line unreadable].
Proof.
  cbv zeta.
  assert (F : fst (@sendNotification Inputs.refusing_environment Sample.builtins
                     Inputs.no_numbers Inputs.fifty Sample.secret Sample.fcm_token
                     (lit "Hi") (lit "Test") constructor) =
              Throw (Error (lit "Decryption failed: bad decrypt")))
    by (vm_compute; reflexivity).
  split; [exact F|].
  exact (@library_logs_the_error_it_throws Inputs.refusing_environment Sample.builtins
           Inputs.no_numbers Inputs.fifty Sample.secret Sample.fcm_token
           (lit "Hi") (lit "Test") constructor _ F).
Defined.

(* ================================================================== *)
(** * Facts about the body parser *)
(* ================================================================== *)

Module ParserFacts.
Import HttpUtils CryptoManager Counting.

Ltac run_handler :=
  unfold handle, on_data, on_end, on_error, on_timeout, clearTimeout, resolve, reject,
    settle, logger, emit, try_catch, bind, lift, of_result, modify, gets, ret;
  cbn [fst snd body size settled timer].

Ltac settled_cases p :=
  let S := fresh "S" in
  destruct (settled p) eqn:S; cbn; try rewrite S; discriminate.

Ltac keep S := cbn; try rewrite S; cbn; first [reflexivity | exact S].

Section Facts.
Context `{NodeBuiltins}.

(** No handler lets an exception escape. *)
Lemma handle_ok (ev : stream_event) (s : Parsing * World) : fst (handle ev s) = Ok tt.
Proof.
  destruct s as [p w]. destruct ev; run_handler.
  - destruct (maxSize <? _); reflexivity.
  - destruct (Nat.eqb _ _); cbn; [reflexivity|].
    destruct (JSON_parse _) as [data | e]; cbn; [|reflexivity].
    destruct (Object_keys_length data); cbn; reflexivity.
  - reflexivity.
  - destruct (timer p); reflexivity.
Qed.

Lemma handle_all_cons (ev : stream_event) (rest : list stream_event) (s : Parsing * World) :
  handle_all (ev :: rest) s = handle_all rest (snd (handle ev s)).
Proof.
  cbn [handle_all]. unfold bind at 1.
  pose proof (handle_ok ev s) as K.
  destruct (handle ev s) as [[[] | e] s']; cbn in K; [reflexivity | discriminate K].
Qed.

Lemma handle_all_app (a b : list stream_event) (s : Parsing * World) :
  handle_all (a ++ b) s = handle_all b (snd (handle_all a s)).
Proof.
  revert s. induction a as [| ev a IH]; intros s.
  - reflexivity.
  - rewrite <- app_comm_cons, !handle_all_cons. apply IH.
Qed.

(** A settled promise stays as it is. *)
Lemma handle_settled (ev : stream_event) (s : Parsing * World) (r : result value) :
  settled (fst s) = Some r -> settled (fst (snd (handle ev s))) = Some r.
Proof.
  destruct s as [p w]. cbn [fst]. intros S. destruct ev; run_handler.
  - destruct (maxSize <? _); keep S.
  - destruct (Nat.eqb _ _); [keep S|].
    destruct (JSON_parse _) as [data | e]; [|keep S].
    cbn. destruct (Object_keys_length data); keep S.
  - keep S.
  - destruct (timer p); keep S.
Qed.

Lemma handle_all_settled (events : list stream_event) (s : Parsing * World)
    (r : result value) :
  settled (fst s) = Some r -> settled (fst (snd (handle_all events s))) = Some r.
Proof.
  revert s. induction events as [| ev events IH]; intros s S.
  - exact S.
  - rewrite handle_all_cons. apply IH, handle_settled, S.
Qed.

(** The timer is cleared only by a handler that settles the promise. *)
Lemma handle_armed (ev : stream_event) (s : Parsing * World) :
  (settled (fst s) = None -> timer (fst s) = true) ->
  settled (fst (snd (handle ev s))) = None -> timer (fst (snd (handle ev s))) = true.
Proof.
  destruct s as [p w]. cbn [fst]. intros I. destruct ev; run_handler.
  - destruct (maxSize <? _); cbn; [settled_cases p | exact I].
  - destruct (Nat.eqb _ _); cbn; [settled_cases p|].
    destruct (JSON_parse _) as [data | e]; cbn; [|settled_cases p].
    destruct (Object_keys_length data); cbn; settled_cases p.
  - settled_cases p.
  - destruct (timer p) eqn:T; cbn; [settled_cases p | rewrite ?T; exact I].
Qed.

Lemma handle_all_armed (events : list stream_event) (s : Parsing * World) :
  (settled (fst s) = None -> timer (fst s) = true) ->
  settled (fst (snd (handle_all events s))) = None ->
  timer (fst (snd (handle_all events s))) = true.
Proof.
  revert s. induction events as [| ev events IH]; intros s I.
  - exact I.
  - rewrite handle_all_cons. apply IH, handle_armed, I.
Qed.

(** Every handler but the one of ['data'] settles the promise, if the
    timer is still set while the promise is pending. *)
Lemma handle_settles (ev : stream_event) (s : Parsing * World) :
  (settled (fst s) = None -> timer (fst s) = true) ->
  (forall chunk, ev <> Data chunk) ->
  settled (fst (snd (handle ev s))) <> None.
Proof.
  destruct s as [p w]. cbn [fst]. intros I D. destruct ev; run_handler.
  - contradiction (D chunk). reflexivity.
  - destruct (Nat.eqb _ _); cbn; [settled_cases p|].
    destruct (JSON_parse _) as [data | e]; cbn; [|settled_cases p].
    destruct (Object_keys_length data); cbn; settled_cases p.
  - settled_cases p.
  - destruct (settled p) as [r |] eqn:S.
    + destruct (timer p); cbn; rewrite ?S; cbn; rewrite ?S; discriminate.
    + rewrite (I eq_refl). cbn. rewrite S. discriminate.
Qed.

Lemma total_size_nonneg (chunks : list bytes) : 0 <= total_size chunks.
Proof. induction chunks as [| c chunks IH]; cbn [total_size fold_right]; [lia|].
  fold (total_size chunks). lia. Qed.

Lemma total_size_cons (c : bytes) (chunks : list bytes) :
  total_size (c :: chunks) = Z.of_nat (List.length c) + total_size chunks.
Proof. reflexivity. Qed.

Lemma text_of_cons (c : bytes) (chunks : list bytes) :
  text_of (c :: chunks) = utf8_decode c ++ text_of chunks.
Proof. reflexivity. Qed.

(** Chunks within the limit are decoded and appended, and nothing else
    happens. *)
Lemma data_within (chunks : list bytes) (p : Parsing) (w : World) :
  size p + total_size chunks <= maxSize ->
  snd (handle_all (map Data chunks) (p, w)) =
    (mkParsing (body p ++ text_of chunks) (size p + total_size chunks) (settled p)
       (timer p), w).
Proof.
  revert p. induction chunks as [| c chunks IH]; intros p L.
  - cbn. rewrite app_nil_r, Z.add_0_r. destruct p; reflexivity.
  - rewrite total_size_cons in L. pose proof (total_size_nonneg chunks) as N.
    cbn [map]. rewrite handle_all_cons.
    assert (Step : snd (handle (Data c) (p, w)) =
                   (mkParsing (body p ++ utf8_decode c)
                      (size p + Z.of_nat (List.length c)) (settled p) (timer p), w)).
    { run_handler. destruct (Z.ltb_spec maxSize (size p + Z.of_nat (List.length c)));
        [lia | reflexivity]. }
    rewrite Step, IH; cbn [body size settled timer]; [|lia].
    rewrite total_size_cons, text_of_cons, <- app_assoc, Z.add_assoc. reflexivity.
Qed.

(** Data events never write to the log. *)
Lemma data_world (chunks : list bytes) (s : Parsing * World) :
  snd (snd (handle_all (map Data chunks) s)) = snd s.
Proof.
  revert s. induction chunks as [| c chunks IH]; intros [p w].
  - reflexivity.
  - cbn [map]. rewrite handle_all_cons, IH. run_handler.
    destruct (maxSize <? _); cbn; [destruct (settled p)|]; reflexivity.
Qed.

(** Chunks beyond the limit reject an unsettled promise. *)
Lemma data_beyond (chunks : list bytes) (p : Parsing) (w : World) :
  settled p = None ->
  maxSize < size p + total_size chunks ->
  size p <= maxSize ->
  settled (fst (snd (handle_all (map Data chunks) (p, w)))) =
    Some (Throw (Error (lit "Request payload too large"))).
Proof.
  revert p. induction chunks as [| c chunks IH]; intros p S L B.
  - unfold total_size in L. cbn [fold_right] in L. lia.
  - rewrite total_size_cons in L. cbn [map]. rewrite handle_all_cons.
    destruct (Z.ltb_spec maxSize (size p + Z.of_nat (List.length c))) as [Over | Under].
    + apply handle_all_settled. run_handler.
      destruct (Z.ltb_spec maxSize (size p + Z.of_nat (List.length c))); [|lia].
      cbn. rewrite S. reflexivity.
    + assert (Step : snd (handle (Data c) (p, w)) =
                     (mkParsing (body p ++ utf8_decode c)
                        (size p + Z.of_nat (List.length c)) (settled p) (timer p), w)).
      { run_handler. destruct (Z.ltb_spec maxSize (size p + Z.of_nat (List.length c)));
          [lia | reflexivity]. }
      rewrite Step. apply IH; cbn [body size settled timer]; [exact S | lia | lia].
Qed.

End Facts.
End ParserFacts.

Import HttpUtils CryptoManager Counting Properties ParserFacts.

(** X15. The size limit: while only data arrives, the promise is
    rejected with "Request payload too large" as soon as more than
    1048576 bytes have come in, a body of exactly 1048576 bytes is still
    within the limit, and nothing is logged. *)
Theorem parseRequestBody_size_limit `{NodeBuiltins} (chunks : list bytes) (w : World) :
  parseRequestBody (map Data chunks) w =
    (if 1048576 <? total_size chunks
     then Some (Throw (Error (lit "Request payload too large")))
     else None,
     w).
Proof.
  unfold parseRequestBody. cbn zeta. rewrite data_world. cbn [snd]. f_equal.
  destruct (Z.ltb_spec 1048576 (total_size chunks)) as [Over | Under].
  - apply data_beyond; cbn; [reflexivity | exact Over | unfold maxSize; lia].
  - rewrite data_within by (cbn; unfold maxSize; lia). reflexivity.
Qed.

Module ParserEndFacts.
Import HttpUtils CryptoManager Counting Properties ParserFacts.

Section Facts.
Context `{NodeBuiltins}.

(** What the promise holds after ['end'] when it was not settled before. *)
Lemma end_outcome (p : Parsing) (w : World) :
  settled p = None ->
  settled (fst (snd (handle End_ (p, w)))) =
    Some (match body p with
          | [] => Throw (Error (lit "Empty request body"))
          | _ :: _ =>
              match JSON_parse (body p) with
              | Ok data =>
                  match Object_keys_length data with
                  | Ok _ => Ok data
                  | Throw _ => invalid_json
                  end
              | Throw _ => invalid_json
              end
          end).
Proof.
  intros S. run_handler. destruct (body p) as [| c text] eqn:B.
  - cbn. rewrite S. reflexivity.
  - cbn [List.length Nat.eqb].
    destruct (JSON_parse (c :: text)) as [data | e]; cbn; [|rewrite S; reflexivity].
    destruct (Object_keys_length data); cbn; rewrite S; reflexivity.
Qed.

Lemma Object_keys_length_cases (data : value) :
  (data <> VNull -> data <> VUndefined -> exists n, Object_keys_length data = Ok n) /\
  (data = VNull \/ data = VUndefined -> exists e, Object_keys_length data = Throw e).
Proof.
  split.
  - intros N U. destruct data; cbn; try (eexists; reflexivity); congruence.
  - intros [-> | ->]; eexists; reflexivity.
Qed.

Lemma started_armed (events : list stream_event) (w : World) :
  settled (fst (snd (handle_all events (started, w)))) = None ->
  timer (fst (snd (handle_all events (started, w)))) = true.
Proof. apply handle_all_armed. reflexivity. Qed.

(** The outcome for a stream of chunks within the limit that ends. *)
Lemma complete_body_outcome (chunks : list bytes) (w : World) :
  total_size chunks <= 1048576 ->
  fst (parseRequestBody (map Data chunks ++ [End_]) w) =
    Some (match text_of chunks with
          | [] => Throw (Error (lit "Empty request body"))
          | _ :: _ =>
              match JSON_parse (text_of chunks) with
              | Ok data =>
                  match Object_keys_length data with
                  | Ok _ => Ok data
                  | Throw _ => invalid_json
                  end
              | Throw _ => invalid_json
              end
          end).
Proof.
  intros L. unfold parseRequestBody. cbn zeta. rewrite handle_all_app.
  rewrite data_within by (cbn; unfold maxSize; lia).
  rewrite handle_all_cons. cbn [handle_all ret snd].
  rewrite end_outcome by reflexivity. reflexivity.
Qed.

(** The outcome for a stream of chunks beyond the limit, whatever follows. *)
Lemma oversized_body_outcome (chunks : list bytes) (rest : list stream_event)
    (w : World) :
  1048576 < total_size chunks ->
  fst (parseRequestBody (map Data chunks ++ rest) w) =
    Some (Throw (Error (lit "Request payload too large"))).
Proof.
  intros L. unfold parseRequestBody. cbn zeta. rewrite handle_all_app.
  apply handle_all_settled.
  destruct (snd (handle_all (map Data chunks) (started, w))) as [p' w'] eqn:E.
  change p' with (fst (p', w')). rewrite <- E.
  apply data_beyond; cbn; [reflexivity | exact L | unfold maxSize; lia].
Qed.

End Facts.
End ParserEndFacts.

Import ParserEndFacts.

(** X16. A stream that ends within the size limit: the text of the
    body is the concatenation of the chunks, each decoded on its own; an
    empty text is rejected with "Empty request body"; a text that
    [JSON.parse] reads as a value other than [null] resolves the promise
    with that value; a text that [JSON.parse] refuses, and also the valid
    JSON text of [null], is rejected with "Invalid JSON in request body". *)
Theorem parseRequestBody_of_a_complete_body `{NodeBuiltins}
    (chunks : list bytes) (w : World) :
  total_size chunks <= 1048576 ->
  let outcome := fst (parseRequestBody (map Data chunks ++ [End_]) w) in
  let text := text_of chunks in
  (text = [] -> outcome = Some (Throw (Error (lit "Empty request body")))) /\
  (forall data, text <> [] -> JSON_parse text = Ok data ->
     data <> VNull -> data <> VUndefined -> outcome = Some (Ok data)) /\
  (text <> [] ->
     (exists e, JSON_parse text = Throw e) \/
     JSON_parse text = Ok VNull \/ JSON_parse text = Ok VUndefined ->
     outcome = Some (Throw (Error (lit "Invalid JSON in request body")))).
Proof.
  intros L outcome text.
  pose proof (complete_body_outcome chunks w L) as O. fold outcome text in O.
  rewrite O. clear O. split; [|split].
  - intros ->. reflexivity.
  - intros data T P N U. destruct text as [| c rest]; [congruence|]. rewrite P.
    destruct (proj1 (Object_keys_length_cases data) N U) as (n & ->). reflexivity.
  - intros T Cases. destruct text as [| c rest]; [congruence|].
    destruct Cases as [(e & ->) | [-> | ->]]; reflexivity.
Qed.

Lemma parseRequestBody_of_a_complete_body_witness :
  total_size [lit "{"; lit "}"] <= 1048576 /\
  fst (@parseRequestBody Sample.builtins (map Data [lit "{"; lit "}"] ++ [End_])
         constructor) = Some (Ok (VObject [])).
Proof.
  assert (L : total_size [lit "{"; lit "}"] <= 1048576) by (vm_compute; discriminate).
  split; [exact L|].
  apply (proj1 (proj2 (@parseRequestBody_of_a_complete_body Sample.builtins
                         [lit "{"; lit "}"] constructor L))).
  - vm_compute. discriminate.
  - vm_compute. reflexivity.
  - discriminate.
  - discriminate.
Defined.

(** X17. The timer and a stream error settle a promise that is still
    pending, with "Request timeout" and with the stream's own error, and
    leave a settled one as it is; the timer logs nothing, a stream error is
    logged once. *)
Theorem parseRequestBody_timer_and_stream_error `{NodeBuiltins}
    (events : list stream_event) (e : error) (w : World) :
  let before := parseRequestBody events w in
  parseRequestBody (events ++ [Timeout]) w =
    (Some (match fst before with
           | Some r => r
           | None => Throw (Error (lit "Request timeout"))
           end),
     snd before) /\
  parseRequestBody (events ++ [StreamError e]) w =
    (Some (match fst before with
           | Some r => r
           | None => Throw e
           end),
     log_event (snd before)
       [Log error_ (lit "Request body parsing error")
          (VObject [(lit "error", VString (message e))])]).
Proof.
  cbn zeta. unfold parseRequestBody. cbn zeta. rewrite !handle_all_app.
  pose proof (started_armed events w) as A.
  destruct (snd (handle_all events (started, w))) as [p w'].
  cbn [fst snd] in *. rewrite !handle_all_cons. cbn [handle_all ret snd]. split.
  - run_handler. destruct (settled p) as [r |] eqn:S.
    + destruct (timer p); cbn; rewrite ?S; cbn; rewrite ?S; reflexivity.
    + rewrite (A eq_refl). cbn. rewrite S. reflexivity.
  - run_handler. destruct (settled p) as [r |] eqn:S; cbn; rewrite ?S; cbn; rewrite ?S;
      reflexivity.
Qed.

(** X14. [parseRequestBody] does not leave its caller waiting: once the
    stream has ended or failed, or the timer has fired, the promise is
    resolved or rejected, whatever came before and whatever comes after. *)
Theorem parseRequestBody_settles_when_the_stream_is_over `{NodeBuiltins}
    (events : list stream_event) (w : World) :
  In End_ events \/ In Timeout events \/ (exists e, In (StreamError e) events) ->
  exists r, fst (parseRequestBody events w) = Some r.
Proof.
  intros Over.
  assert (Split : exists before ev after,
            events = before ++ ev :: after /\ forall chunk, ev <> Data chunk).
  { destruct Over as [I | [I | (e & I)]];
      apply in_split in I; destruct I as (before & after & ->);
      eexists before, _, after; (split; [reflexivity | discriminate]). }
  destruct Split as (before & ev & after & -> & D).
  unfold parseRequestBody. cbn [fst].
  rewrite handle_all_app, handle_all_cons.
  pose proof (handle_settles ev (snd (handle_all before (started, w)))
                (started_armed before w) D) as S.
  destruct (settled (fst (snd (handle ev (snd (handle_all before (started, w)))))))
    as [r |] eqn:E; [| contradiction S; reflexivity].
  exists r. apply handle_all_settled. exact E.
Qed.

Lemma parseRequestBody_settles_when_the_stream_is_over_witness :
  (In End_ [Data (lit "{}"); Timeout] \/ In Timeout [Data (lit "{}"); Timeout] \/
   (exists e, In (StreamError e) [Data (lit "{}"); Timeout])) /\
  exists r,
    fst (@parseRequestBody Sample.builtins [Data (lit "{}"); Timeout] constructor) =
      Some r.
Proof.
  assert (Over : In End_ [Data (lit "{}"); Timeout] \/
                 In Timeout [Data (lit "{}"); Timeout] \/
                 (exists e, In (StreamError e) [Data (lit "{}"); Timeout]))
    by (right; left; simpl; tauto).
  split; [exact Over|].
  exact (@parseRequestBody_settles_when_the_stream_is_over Sample.builtins _
           constructor Over).
Defined.

(* ================================================================== *)
(** * Facts about the status of a failed request *)
(* ================================================================== *)

Module StatusFacts.
Import FirebaseNotificationService.

Lemma str_includes_app_r (a b needle : jsstring) :
  str_includes b needle = true -> str_includes (a ++ b) needle = true.
Proof.
  intros I. induction a as [| c a IH].
  - exact I.
  - cbn [app str_includes]. rewrite IH. apply orb_true_r.
Qed.

Lemma code_is_of (e : error) (c : string) :
  code e = Some (lit c) -> forall c', code_is e c' = str_eqb (lit c) (lit c').
Proof. intros E c'. unfold code_is. rewrite E. reflexivity. Qed.

Lemma code_is_not (e : error) (c : string) :
  code e <> Some (lit c) -> code_is e c = false.
Proof.
  intros N. unfold code_is. destruct (code e) as [c' |]; [|reflexivity].
  apply not_true_is_false. intros E. apply ServiceAccountFacts.str_eqb_eq in E.
  apply N. rewrite E. reflexivity.
Qed.

End StatusFacts.

Import ErrorResponse FirebaseNotificationService StatusFacts.

(** X18. How the [catch] block of [handleRequest] answers the errors
    of [sendNotification]: an unregistered and a malformed token give 400
    with the specific message, an authentication error gives 401 with
    "Firebase authentication failed", and any other SDK error whose message
    mentions "token" gives 400 and shows the SDK's message to the client. *)
Theorem send_errors_and_their_status (e : error) (totalDuration : Z) :
  let answer status shown :=
    SendErrorResponse status shown
      (VObject [(lit "duration", VString (render totalDuration ++ lit "ms"));
                (lit "service", VString serviceName)]) in
  let response := failure_response (specific_error e) totalDuration in
  (code e = Some (lit "messaging/registration-token-not-registered") ->
   response = answer 400 (lit "FCM token is not registered or has expired")) /\
  (code e = Some (lit "messaging/invalid-registration-token") ->
   response = answer 400 (lit "FCM token format is invalid")) /\
  (code e = Some (lit "messaging/authentication-error") ->
   response = answer 401 (lit "Firebase authentication failed")) /\
  (code e <> Some (lit "messaging/registration-token-not-registered") ->
   code e <> Some (lit "messaging/invalid-registration-token") ->
   code e <> Some (lit "messaging/authentication-error") ->
   str_includes (message e) (lit "token") = true ->
   response = answer 400 (lit "Firebase messaging error: " ++ message e)).
Proof.
  cbn zeta. unfold failure_response. repeat split.
  - intros C. unfold specific_error. rewrite !(code_is_of e _ C). vm_compute. reflexivity.
  - intros C. unfold specific_error. rewrite !(code_is_of e _ C). vm_compute. reflexivity.
  - intros C. unfold specific_error. rewrite !(code_is_of e _ C). vm_compute. reflexivity.
  - intros N1 N2 N3 I. unfold specific_error.
    rewrite (code_is_not e _ N1), (code_is_not e _ N2), (code_is_not e _ N3).
    unfold status_of. cbn [message Error].
    rewrite (str_includes_app_r (lit "Firebase messaging error: ") _ _ I). reflexivity.
Qed.

Import HttpUtils CryptoManager Counting ParserEndFacts.

(** X19. A body that cannot be used is answered as a server error:
    when the stream delivers its chunks and ends, and [parseRequestBody]
    rejects (the body is too large, empty, or not the JSON text of a
    non-null value), the [catch] block of [handleRequest] answers 500
    "Internal server error". *)
Theorem unusable_bodies_are_answered_with_500 `{NodeBuiltins}
    (chunks : list bytes) (w : World) (e : error) (totalDuration : Z) :
  fst (parseRequestBody (map Data chunks ++ [End_]) w) = Some (Throw e) ->
  failure_response e totalDuration =
    SendErrorResponse 500 (lit "Internal server error")
      (VObject [(lit "duration", VString (render totalDuration ++ lit "ms"));
                (lit "service", VString serviceName)]).
Proof.
  intros R.
  assert (M : message e = lit "Request payload too large" \/
              message e = lit "Empty request body" \/
              message e = lit "Invalid JSON in request body").
  { destruct (Z.ltb_spec 1048576 (total_size chunks)) as [Over | Under].
    - rewrite (oversized_body_outcome chunks [End_] w Over) in R.
      left. injection R as <-. reflexivity.
    - rewrite (complete_body_outcome chunks w Under) in R. right.
      destruct (text_of chunks) as [| c text].
      + left. injection R as <-. reflexivity.
      + right. destruct (JSON_parse (c :: text)) as [data | e'].
        * destruct (Object_keys_length data); [discriminate R|].
          injection R as <-. reflexivity.
        * injection R as <-. reflexivity. }
  unfold failure_response.
  destruct M as [-> | [-> | ->]]; vm_compute; reflexivity.
Qed.

Lemma unusable_bodies_are_answered_with_500_witness :
  fst (@parseRequestBody Sample.builtins (map Data [] ++ [End_]) constructor) =
    Some (Throw (Error (lit "Empty request body"))) /\
  failure_response (Error (lit "Empty request body")) 12 =
    SendErrorResponse 500 (lit "Internal server error")
      (VObject [(lit "duration", VString (lit "12ms"));
                (lit "service", VString serviceName)]).
Proof.
  assert (R : fst (@parseRequestBody Sample.builtins (map Data [] ++ [End_]) constructor) =
              Some (Throw (Error (lit "Empty request body")))) by (vm_compute; reflexivity).
  split; [exact R|].
  exact (@unusable_bodies_are_answered_with_500 Sample.builtins [] constructor _ 12 R).
Defined.
